(** * Calibration driver of matsim-episim: a shallow embedding of
      [src/main/python/calibration/calibrate.py] and its properties.

    Numbers: the script computes on IEEE double precision values held in
    numpy arrays and pandas series.  The embedding keeps the special values
    of that arithmetic (the two infinities and NaN, which numpy and pandas
    produce instead of raising on a division by zero) and takes the finite
    values to be exact rationals: rounding and the sign of zero are not
    modelled.  Where rounding decides, the derived columns are given in
    binary64 as well (module [Binary64]).  Python exceptions are an
    explicit error result. *)

From Stdlib Require Import ZArith QArith Qcanon Qcabs Lia Ascii Reals Lra.
From Corelib Require PrimFloat.
From stdpp Require Import base option list strings pretty gmap.

Set Default Proof Using "Type".

(** ** Exceptions *)

Inductive exn :=
  | IndexError | KeyError | TypeError | ValueError
  | ZeroDivisionError | FileNotFoundError | NameError | SystemExit
  | CalledProcessError.

Inductive result (A : Type) :=
  | Ok (a : A)
  | Raise (e : exn).
Arguments Ok {A} a.
Arguments Raise {A} e.

#[global] Instance result_ret : MRet result := fun _ a => Ok a.
#[global] Instance result_bind : MBind result := fun _ _ k m =>
  match m with
  | Ok a => k a
  | Raise e => Raise e
  end.

#[global] Instance exn_eq_dec : EqDecision exn.
Proof. solve_decision. Defined.
#[global] Instance result_eq_dec {A} `{EqDecision A} : EqDecision (result A).
Proof. solve_decision. Defined.

Definition is_ok {A} (r : result A) : bool :=
  match r with Ok _ => true | Raise _ => false end.

(** ** Double precision values, up to rounding *)

Module Float.

Inductive float64 :=
  | Fin (q : Qc)
  | PInf
  | NInf
  | NaN.

#[global] Instance Qc_eq_dec' : EqDecision Qc := Qc_eq_dec.
#[global] Instance float64_eq_dec : EqDecision float64.
Proof. solve_decision. Defined.

Definition is_finite (x : float64) : bool :=
  match x with Fin _ => true | _ => false end.

Definition of_Z (z : Z) : float64 := Fin (Q2Qc (inject_Z z)).

Definition fopp (x : float64) : float64 :=
  match x with
  | Fin q => Fin (- q)%Qc
  | PInf => NInf
  | NInf => PInf
  | NaN => NaN
  end.

Definition fadd (x y : float64) : float64 :=
  match x, y with
  | NaN, _ | _, NaN => NaN
  | Fin a, Fin b => Fin (a + b)%Qc
  | PInf, NInf | NInf, PInf => NaN
  | PInf, _ | _, PInf => PInf
  | NInf, _ | _, NInf => NInf
  end.

Definition fsub (x y : float64) : float64 := fadd x (fopp y).

(** [x / y] as numpy and pandas compute it: a zero divisor gives an
    infinity of the sign of the dividend, or NaN for [0 / 0]. *)
Definition fdiv (x y : float64) : float64 :=
  match x, y with
  | NaN, _ | _, NaN => NaN
  | Fin a, Fin b =>
      match (b ?= 0)%Qc with
      | Eq => match (a ?= 0)%Qc with
              | Eq => NaN
              | Gt => PInf
              | Lt => NInf
              end
      | _ => Fin (a / b)%Qc
      end
  | Fin _, _ => Fin 0%Qc
  | _, PInf | _, NInf => NaN
  | PInf, Fin b => match (b ?= 0)%Qc with Lt => NInf | _ => PInf end
  | NInf, Fin b => match (b ?= 0)%Qc with Lt => PInf | _ => NInf end
  end.

Definition fmul (x y : float64) : float64 :=
  match x, y with
  | NaN, _ | _, NaN => NaN
  | Fin a, Fin b => Fin (a * b)%Qc
  | Fin a, (PInf | NInf) as i | (PInf | NInf) as i, Fin a =>
      match (a ?= 0)%Qc with
      | Eq => NaN
      | Gt => i
      | Lt => fopp i
      end
  | PInf, PInf | NInf, NInf => PInf
  | PInf, NInf | NInf, PInf => NInf
  end.

Definition fabs (x : float64) : float64 :=
  match x with
  | Fin q => Fin (Qcabs q)
  | PInf | NInf => PInf
  | NaN => NaN
  end.

(** Comparisons with a NaN operand are false. *)
Definition fcompare (x y : float64) : option comparison :=
  match x, y with
  | NaN, _ | _, NaN => None
  | Fin a, Fin b => Some (a ?= b)%Qc
  | PInf, PInf | NInf, NInf => Some Eq
  | PInf, _ | _, NInf => Some Gt
  | NInf, _ | _, PInf => Some Lt
  end.

Definition fge (x y : float64) : bool :=
  match fcompare x y with Some (Gt | Eq) => true | _ => false end.

Definition flt (x y : float64) : bool :=
  match fcompare x y with Some Lt => true | _ => false end.

Definition fsum (l : list float64) : float64 := foldr fadd (Fin 0%Qc) l.

(** [np.mean]: the sum over the number of elements (NaN on an empty array). *)
Definition np_mean (l : list float64) : float64 :=
  fdiv (fsum l) (of_Z (Z.of_nat (length l))).

End Float.
Export Float.

(** ** Error metrics *)

(** [np.empty]: an array whose contents are whatever the memory held. *)
Definition np_empty (n : nat) (junk : float64) : list float64 := replicate n junk.

Definition getitem {A} (l : list A) (j : nat) : result A :=
  match l !! j with Some x => Ok x | None => Raise IndexError end.

(** The body of the [for j in range(actual.shape[0])] loop of
    [percentage_error], run over the indices [js] on the array [res]. *)
Fixpoint percentage_error_loop (actual predicted : list float64)
    (js : list nat) (res : list float64) : result (list float64) :=
  match js with
  | [] => Ok res
  | j :: js' =>
      a ← getitem actual j;
      (if fge (fabs a) (of_Z 15)
       then p ← getitem predicted j;
            percentage_error_loop actual predicted js'
              (<[j := fdiv (fsub a p) a]> res)
       else p ← getitem predicted j;
            percentage_error_loop actual predicted js'
              (<[j := fdiv (fsub a p) (np_mean actual)]> res))
  end.

(** What one iteration of that loop stores at its index. *)
Definition percentage_error_entry (actual : list float64) (a p : float64)
    : float64 :=
  if fge (fabs a) (of_Z 15)
  then fdiv (fsub a p) a
  else fdiv (fsub a p) (np_mean actual).

(** [percentage_error]; [junk] is what [np.empty] finds in memory. *)
Definition percentage_error (junk : float64)
    (actual predicted : list float64) : result (list float64) :=
  percentage_error_loop actual predicted (seq 0 (length actual))
    (np_empty (length actual) junk).

Definition mean_absolute_percentage_error (junk : float64)
    (y_true y_pred : list float64) : result float64 :=
  pe ← percentage_error junk y_true y_pred;
  Ok (fmul (np_mean (map fabs pe)) (of_Z 100)).

(** ** Data Loader: the derived columns of [read_data]

    A pandas column of numbers read from a file is a list of rationals; a
    derived column may hold missing values (pandas' NaN), which are [None]. *)

Definition of_option (x : option Qc) : float64 :=
  match x with Some q => Fin q | None => NaN end.

Definition Qcsum (l : list Qc) : Qc := foldr Qcplus 0%Qc l.

Definition Qc_of_nat (n : nat) : Qc := Q2Qc (inject_Z (Z.of_nat n)).

(** The valid observations of a column. *)
Definition valid (l : list (option Qc)) : list Qc := omap (fun x => x) l.

(** Mean of the valid observations [obs]; there is none over no observation. *)
Definition obs_mean (obs : list Qc) : option Qc :=
  match obs with
  | [] => None
  | _ => Some (Qcsum obs / Qc_of_nat (length obs))%Qc
  end.

(** [Series.diff(1)]: the first row has no predecessor and is missing. *)
Fixpoint diff_from (prev : Qc) (l : list Qc) : list (option Qc) :=
  match l with
  | [] => []
  | x :: l' => Some (x - prev)%Qc :: diff_from x l'
  end.

Definition diff1 (l : list Qc) : list (option Qc) :=
  match l with
  | [] => []
  | x :: l' => None :: diff_from x l'
  end.

(** [Series.cumsum()]. *)
Fixpoint cumsum_from (acc : Qc) (l : list Qc) : list Qc :=
  match l with
  | [] => []
  | x :: l' => (acc + x)%Qc :: cumsum_from (acc + x)%Qc l'
  end.

Definition cumsum (l : list Qc) : list Qc := cumsum_from 0%Qc l.

(** The trailing window of [Series.rolling(window)] that ends at row [i]:
    the [window] rows up to and including [i], fewer at the start. *)
Definition trailing (window : nat) (l : list (option Qc)) (i : nat)
    : list (option Qc) :=
  drop (S i - window) (take (S i) l).

(** [.rolling(window).mean()] with pandas' default [min_periods = window]:
    a row is valid only when its window holds [window] valid observations. *)
Definition window_mean (window : nat) (w : list (option Qc)) : option Qc :=
  let obs := valid w in
  if (window <=? length obs)%nat then obs_mean obs else None.

Definition rolling_mean (window : nat) (l : list (option Qc))
    : list (option Qc) :=
  map (fun i => window_mean window (trailing window l i)) (seq 0 (length l)).

(** [Series.mean()]: missing values are skipped. *)
Definition series_mean (l : list (option Qc)) : option Qc :=
  obs_mean (valid l).

(** [s / s.mean()], elementwise. *)
Definition normalize (smoothed : list (option Qc)) : list float64 :=
  map (fun x => fdiv (of_option x) (of_option (series_mean smoothed))) smoothed.

(** The simulation side: [cases], [casesSmoothed] and [casesNorm] from the
    cumulative column [nShowingSymptomsCumulative]. *)
Definition sim_cases (cumulative : list Qc) : list (option Qc) := diff1 cumulative.

Definition sim_casesSmoothed (window : nat) (cumulative : list Qc) :=
  rolling_mean window (sim_cases cumulative).

Definition sim_casesNorm (window : nat) (cumulative : list Qc) : list float64 :=
  normalize (sim_casesSmoothed window cumulative).

(** The reported side: [casesSmoothed] and [casesNorm] from the daily column
    [cases]. *)
Definition rki_casesSmoothed (window : nat) (cases : list Qc) :=
  rolling_mean window (map Some cases).

Definition rki_casesNorm (window : nat) (cases : list Qc) : list float64 :=
  normalize (rki_casesSmoothed window cases).

Definition scale (k : Qc) (l : list Qc) : list Qc := map (Qcmult k) l.

(** ** Formatting of the simulator command line *)

Definition dquote : string := String "034"%char EmptyString.

Definition zero_pad (width : nat) (s : string) : string :=
  foldr (fun _ acc => String "0"%char acc) s
    (seq 0 (width - String.length s)).

(** ["%.<prec>f" % x]: [x] rounded to [prec] decimals, to the even
    neighbour in a tie. *)
Definition format_f (prec : nat) (x : Qc) : string :=
  let n := Qnum (this x) in
  let d := Zpos (Qden (this x)) in
  let scaled := (Z.abs n * 10 ^ Z.of_nat prec)%Z in
  let fl := (scaled / d)%Z in
  let r := (scaled mod d)%Z in
  let m := if ((d <? 2 * r) || ((2 * r =? d) && Z.odd fl))%Z
           then (fl + 1)%Z else fl in
  let int_part := pretty (m / 10 ^ Z.of_nat prec)%Z in
  let frac_part := zero_pad prec (pretty (m mod 10 ^ Z.of_nat prec)%Z) in
  (if (n <? 0)%Z then "-" else EmptyString)
  +:+ int_part
  +:+ (match prec with O => EmptyString | _ => "." +:+ frac_part end).

(** ["%d" % n] on a trial number. *)
Definition format_d (n : nat) : string := pretty n.

(** Values of the run configuration ([args.__dict__]) kept as attributes of
    the study. *)
Inductive argval :=
  | VStr (s : string)
  | VInt (z : Z)
  | VNone.

#[global] Instance argval_eq_dec : EqDecision argval.
Proof. solve_decision. Defined.

(** ["%s" % v]. *)
Definition format_s (v : argval) : string :=
  match v with
  | VStr s => s
  | VInt z => pretty z
  | VNone => "None"
  end.

Definition cmd_unconstrained (scenario : argval) (n : nat) (c : Qc) : string :=
  "java -jar matsim-episim-1.0-SNAPSHOT.jar scenarioCreation trial "
  +:+ format_s scenario +:+ " --number " +:+ format_d n
  +:+ " --unconstrained --calibParameter " +:+ format_f 12 c.

Definition cmd_ci_correction (scenario : argval) (number : nat)
    (correction : Qc) (start : argval) : string :=
  ("java -Xmx5G -jar matsim-episim-1.0-SNAPSHOT.jar scenarioCreation trial "
   +:+ format_s scenario +:+ " --days 14")
  +:+ (" --number " +:+ format_d number
       +:+ " --correction " +:+ format_f 3 correction)
  +:+ ("--start " +:+ format_s start).

Definition cmd_multi (scenario : argval) (number : nat)
    (alpha correction : Qc) : string :=
  ("java -Xmx5G -jar matsim-episim-1.0-SNAPSHOT.jar scenarioCreation trial "
   +:+ format_s scenario +:+ " --days 75")
  +:+ (" --number " +:+ format_d number
       +:+ " --alpha " +:+ format_f 3 alpha)
  +:+ (" --correction " +:+ format_f 3 correction
       +:+ " --start " +:+ dquote +:+ "2020-03-08" +:+ dquote).

(** The words of a command line, split at spaces (quotes are kept). *)
Fixpoint words_from (cur : string) (s : string) : list string :=
  match s with
  | EmptyString => [String.rev cur]
  | String c s' =>
      if Ascii.eqb c " "%char
      then String.rev cur :: words_from EmptyString s'
      else words_from (String c cur) s'
  end.

Definition words (s : string) : list string :=
  filter (fun w => w ≠ EmptyString) (words_from EmptyString s).

(** ** Tables read from files

    [pd.read_csv] yields a table of rows; dates are calendar days in ISO
    form (year-month-day), which their string order compares. *)

Record sim_row := {
  date : string;
  district : string;
  day : Z;
  nTotalInfected : Qc;
  nContagiousCumulative : Qc;
  nShowingSymptomsCumulative : Qc;
  nSeriouslySick : Qc;
  nCritical : Qc;
}.

Record hospital_row := {
  Datum : string;
  Stationaere_Behandlung : Qc;
  Intensivmedizin : Qc;
}.

Record rki_row := {
  rki_date : string;
  rki_cases : Qc;
}.

Inductive file :=
  | SimFile (rows : list sim_row)
  | HospitalFile (rows : list hospital_row)
  | RkiFile (rows : list rki_row).

Abbreviation filesystem := (gmap string file).

Definition read_sim (fs : filesystem) (f : string) : result (list sim_row) :=
  match fs !! f with
  | Some (SimFile rows) => Ok rows
  | Some _ => Raise KeyError
  | None => Raise FileNotFoundError
  end.

Definition read_hospital (fs : filesystem) (f : string)
    : result (list hospital_row) :=
  match fs !! f with
  | Some (HospitalFile rows) => Ok rows
  | Some _ => Raise KeyError
  | None => Raise FileNotFoundError
  end.

Definition read_rki (fs : filesystem) (f : string) : result (list rki_row) :=
  match fs !! f with
  | Some (RkiFile rows) => Ok rows
  | Some _ => Raise KeyError
  | None => Raise FileNotFoundError
  end.

(** [df[df.district == district]]. *)
Definition by_district (d : argval) (df : list sim_row) : list sim_row :=
  filter (fun r => VStr (district r) = d) df.

(** [df[df.day == i].nTotalInfected]. *)
Definition nTotalInfected_at (df : list sim_row) (i : Z) : list Qc :=
  map nTotalInfected (filter (fun r => day r = i) df).

(** [float(series)]: defined on a series of exactly one element. *)
Definition float_of_series {A} (s : list A) : result A :=
  match s with
  | [x] => Ok x
  | _ => Raise TypeError
  end.

(** Division of two Python floats. *)
Definition py_truediv (x y : Qc) : result Qc :=
  if decide (y = 0%Qc) then Raise ZeroDivisionError else Ok (x / y)%Qc.

(** The loop of [infection_rate] over the days [is], appending to [rates]. *)
Fixpoint infection_rate_loop (df : list sim_row) (target_interval : Z)
    (days : list Z) (rates : list Qc) : result (list Qc) :=
  match days with
  | [] => Ok rates
  | i :: days' =>
      prev ← float_of_series (nTotalInfected_at df (i - target_interval));
      today ← float_of_series (nTotalInfected_at df i);
      r ← py_truediv today prev;
      infection_rate_loop df target_interval days' (rates ++ [r])
  end.

(** [range(lo, hi)]. *)
Definition range (lo hi : Z) : list Z :=
  map (fun k => (lo + Z.of_nat k)%Z) (seq 0 (Z.to_nat (hi - lo))).

Definition np_square (x : float64) : float64 := fmul x x.

Definition infection_rate_of (fs : filesystem) (f : string) (d : argval)
    (target_rate : Qc) (target_interval : Z) : result (float64 * float64) :=
  df ← read_sim fs f;
  let df := by_district d df in
  rates ← infection_rate_loop df target_interval (range 25 40) [];
  let rates := map Fin rates in
  Ok (np_mean rates,
      np_mean (map (fun r => np_square (fsub r (Fin target_rate))) rates)).

(** [infection_rate] with its defaults [target_rate=2], [target_interval=3]. *)
Definition infection_rate (fs : filesystem) (f : string) (d : argval)
    : result (float64 * float64) :=
  infection_rate_of fs f d (Qc_of_nat 2) 3.

(** [read_data]: the three tables with their derived columns. *)

Record sim_frame_row := {
  srow : sim_row;
  cases : option Qc;
  casesSmoothed : option Qc;
  casesNorm : float64;
}.

Record rki_frame_row := {
  rrow : rki_row;
  casesCumulative : Qc;
  rki_smoothed : option Qc;
  rki_norm : float64;
}.

Fixpoint zip4 {A B C D E} (f : A -> B -> C -> D -> E)
    (a : list A) (b : list B) (c : list C) (d : list D) : list E :=
  match a, b, c, d with
  | x :: a', y :: b', z :: c', w :: d' => f x y z w :: zip4 f a' b' c' d'
  | _, _, _, _ => []
  end.

Definition sim_frame (window : nat) (df : list sim_row) : list sim_frame_row :=
  let cum := map nShowingSymptomsCumulative df in
  zip4 Build_sim_frame_row df (sim_cases cum) (sim_casesSmoothed window cum)
    (sim_casesNorm window cum).

Definition rki_frame (window : nat) (df : list rki_row) : list rki_frame_row :=
  let c := map rki_cases df in
  zip4 Build_rki_frame_row df (cumsum c) (rki_casesSmoothed window c)
    (rki_casesNorm window c).

Definition read_data (fs : filesystem) (f : string) (d : argval)
    (hospital rki : string) (window : nat)
    : result (list sim_frame_row * list hospital_row * list rki_frame_row) :=
  df ← read_sim fs f;
  let df := sim_frame window (by_district d df) in
  hospital ← read_hospital fs hospital;
  rki ← read_rki fs rki;
  Ok (df, hospital, rki_frame window rki).

(** [(col >= start) & (col <= end)]: dates are compared as strings, which
    is the order of the dates for days written as [iso_date] describes;
    pandas reads a bound written otherwise as a date as well. *)
Definition between (start end_ : string) (d : string) : bool :=
  String.leb start d && String.leb d end_.

(** A bound of the comparison window: pandas compares a date column with a
    string by reading the string as a date, and refuses other values. *)
Definition as_date (v : argval) : result string :=
  match v with
  | VStr s => Ok s
  | _ => Raise TypeError
  end.

(** [df.cases.idxmax()]: the index label (the date) of the first largest
    valid value of the column; there is none in a column without one (an
    empty column raises [ValueError]; on rows that are all missing the
    exception depends on the pandas version). *)
Fixpoint idxmax_from (best : string * Qc) (l : list (string * option Qc))
    : string :=
  match l with
  | [] => fst best
  | (_, None) :: l' => idxmax_from best l'
  | (i, Some x) :: l' =>
      match (x ?= snd best)%Qc with
      | Gt => idxmax_from (i, x) l'
      | _ => idxmax_from best l'
      end
  end.

Fixpoint idxmax (l : list (string * option Qc)) : result string :=
  match l with
  | [] => Raise ValueError
  | (_, None) :: l' => idxmax l'
  | (i, Some x) :: l' => Ok (idxmax_from (i, x) l')
  end.

(** [Series.tail(1)] of a column with its index. *)
Definition tail1 {A} (l : list A) : list A := drop (length l - 1) l.

(** [a / b] on two indexed series: pandas aligns the rows on their index
    labels; a label that only one side has gives a missing value.  (pandas
    also sorts the joined index, which the callers here do not observe.) *)
Definition series_truediv (a b : list (string * Qc))
    : list (string * float64) :=
  map (fun '(i, x) =>
         (i, match list_find (fun r => fst r = i) b with
             | Some (_, (_, y)) => fdiv (Fin x) (Fin y)
             | None => NaN
             end)) a
  ++ map (fun '(i, _) => (i, NaN))
       (filter (fun r => fst r ∉ map fst a) b).

(** The dark figure (Dunkelziffer) line of [calc_multi_error]. *)
Definition dunkelziffer (df : list sim_frame_row) (rki : list rki_frame_row)
    : result float64 :=
  float_of_series
    (map snd
       (series_truediv
          (tail1 (map (fun r => (date (srow r), nContagiousCumulative (srow r))) df))
          (tail1 (map (fun r => (rki_date (rrow r), casesCumulative r)) rki)))).

(** The signature of [sklearn.metrics.mean_squared_log_error] on the
    double precision data of the tables. *)
Definition metric := list float64 -> list float64 -> result float64.

Definition error_report : Type := float64 * float64 * float64 * string * float64.

Definition calc_multi_error (msle : metric) (fs : filesystem)
    (f : string) (d start end_ : argval) (hospital rki : string)
    : result error_report :=
  '(df, hospital, rki) ← read_data fs f d hospital rki 5;
  start ← as_date start;
  end_ ← as_date end_;
  let df := filter (fun r => between start end_ (date (srow r))) df in
  let hospital := filter (fun r => between start end_ (Datum r)) hospital in
  let rki := filter (fun r => between start end_ (rki_date (rrow r))) rki in
  peak ← idxmax (map (fun r => (date (srow r), cases r)) df);
  error_sick ← msle (map (fun r => Fin (Stationaere_Behandlung r)) hospital)
                    (map (fun r => Fin (nSeriouslySick (srow r))) df);
  error_critical ← msle (map (fun r => Fin (Intensivmedizin r)) hospital)
                        (map (fun r => Fin (nCritical (srow r))) df);
  error_cases ← msle (map rki_norm rki) (map casesNorm df);
  dz ← dunkelziffer df rki;
  Ok (error_cases, error_sick, error_critical, peak, dz).

(** ** Objective functions

    An objective runs in a store that holds the files on disk, the study
    database, the module globals and the trial being evaluated; the
    simulator, the optimizer's sampler and the library metric are given.
    What the functions print is left out. *)

Inductive trial_attr :=
  | TFloat (x : float64)
  | TStr (s : string).

Record frozen_trial := {
  t_number : nat;
  t_params : gmap string Qc;
  t_values : result (list float64);
  t_user_attrs : gmap string trial_attr;
}.

Record study := {
  directions : nat;
  user_attrs : gmap string argval;
  trials : list frozen_trial;
}.

Record state := {
  files : filesystem;
  commands : list string;
  globals : gmap string argval;
  storage : gmap string study;
  trial_params : gmap string Qc;
  trial_user_attrs : gmap string trial_attr;
}.

Record CompletedProcess := {
  args : string;
  returncode : Z;
}.

Record externals := {
  simulate : string -> filesystem -> Z * filesystem;
  sampler : nat -> string -> Qc -> Qc -> Qc;
  mean_squared_log_error : metric;
}.

Record trial := {
  study_name : string;
  number : nat;
}.

Definition M (A : Type) : Type := state -> result A * state.

#[global] Instance M_ret : MRet M := fun _ a s => (Ok a, s).
#[global] Instance M_bind : MBind M := fun _ _ k m s =>
  match m s with
  | (Ok a, s') => k a s'
  | (Raise e, s') => (Raise e, s')
  end.

Definition lift {A} (r : result A) : M A := fun s => (r, s).

Definition get_files : M filesystem := fun s => (Ok (files s), s).

Definition with_files (fs : filesystem) (cmd : string) (s : state) : state :=
  {| files := fs; commands := commands s ++ [cmd]; globals := globals s;
     storage := storage s; trial_params := trial_params s;
     trial_user_attrs := trial_user_attrs s |}.

Definition with_param (name : string) (v : Qc) (s : state) : state :=
  {| files := files s; commands := commands s; globals := globals s;
     storage := storage s; trial_params := <[name := v]> (trial_params s);
     trial_user_attrs := trial_user_attrs s |}.

Definition with_user_attr (name : string) (v : trial_attr) (s : state) : state :=
  {| files := files s; commands := commands s; globals := globals s;
     storage := storage s; trial_params := trial_params s;
     trial_user_attrs := <[name := v]> (trial_user_attrs s) |}.

(** [subprocess.run(cmd, shell=True)]: runs the command to its end and
    returns its record, whatever the exit status ([check] is not set). *)
Definition subprocess_run (ext : externals) (cmd : string) : M CompletedProcess :=
  fun s =>
    let '(rc, fs) := simulate ext cmd (files s) in
    (Ok {| args := cmd; returncode := rc |}, with_files fs cmd s).

(** [trial.suggest_uniform(name, low, high)]. *)
Definition suggest_uniform (ext : externals) (t : trial) (name : string)
    (low high : Qc) : M Qc :=
  fun s =>
    let v := sampler ext (number t) name low high in
    (Ok v, with_param name v s).

(** [trial.study.user_attrs[key]]. *)
Definition study_user_attr (t : trial) (key : string) : M argval :=
  fun s =>
    match storage s !! study_name t with
    | Some st =>
        match user_attrs st !! key with
        | Some v => (Ok v, s)
        | None => (Raise KeyError, s)
        end
    | None => (Raise KeyError, s)
    end.

(** [trial.set_user_attr(key, value)].  The parameters and attributes of
    the running trial are kept beside the study database here and enter it
    when [run_trial] stores the trial; optuna writes them through at once. *)
Definition set_user_attr (key : string) (v : trial_attr) : M unit :=
  fun s => (Ok tt, with_user_attr key v s).

(** A module global read inside a function. *)
Definition global (name : string) : M argval :=
  fun s =>
    match globals s !! name with
    | Some v => (Ok v, s)
    | None => (Raise NameError, s)
    end.

Definition decimal (num : Z) (den : positive) : Qc := Q2Qc (num # den).

Definition objective_unconstrained (ext : externals) (t : trial)
    : M (list float64) :=
  let n := number t in
  c ← suggest_uniform ext t "calibrationParameter"
        (decimal 1 1000000) (decimal 4 1000000);
  scenario ← study_user_attr t "scenario";
  district ← study_user_attr t "district";
  let cmd := cmd_unconstrained scenario n c in
  _ ← subprocess_run ext cmd;
  fs ← get_files;
  '(rate, error) ← lift (infection_rate fs
      ("output-calibration-unconstrained/" +:+ format_d n +:+ "/infections.txt")
      district);
  _ ← set_user_attr "mean_infection_rate" (TFloat rate);
  mret [error].

Definition record_errors (r : error_report) : M unit :=
  let '(e_cases, e_sick, e_critical, peak, dz) := r in
  _ ← set_user_attr "error_cases" (TFloat e_cases);
  _ ← set_user_attr "error_sick" (TFloat e_sick);
  _ ← set_user_attr "error_critical" (TFloat e_critical);
  _ ← set_user_attr "peak" (TStr peak);
  set_user_attr "dz" (TFloat dz).

Definition objective_ci_correction (ext : externals) (t : trial)
    : M (list float64) :=
  let n := number t in
  scenario ← study_user_attr t "scenario";
  district ← study_user_attr t "district";
  correction ← suggest_uniform ext t "ciCorrection" (decimal 2 10) (decimal 1 1);
  start ← study_user_attr t "start";
  end_ ← study_user_attr t "end";
  let cmd := cmd_ci_correction scenario n correction start in
  _ ← subprocess_run ext cmd;
  fs ← get_files;
  r ← lift (calc_multi_error (mean_squared_log_error ext) fs
      ("output-calibration/" +:+ format_d n +:+ "/infections.txt")
      district start end_ "berlin-hospital.csv" "berlin-cases.csv");
  _ ← record_errors r;
  let '(e_cases, _, _, _, _) := r in
  mret [e_cases].

Definition objective_multi (ext : externals) (t : trial)
    : M (list float64) :=
  let n := number t in
  scenario ← global "scenario";
  district ← global "district";
  alpha ← suggest_uniform ext t "alpha" (decimal 1 1) (decimal 2 1);
  correction ← suggest_uniform ext t "ciCorrection" (decimal 2 10) (decimal 1 1);
  let cmd := cmd_multi scenario n alpha correction in
  _ ← subprocess_run ext cmd;
  fs ← get_files;
  r ← lift (calc_multi_error (mean_squared_log_error ext) fs
      ("output-calibration/" +:+ format_d n +:+ "/infections.txt")
      district (VStr "2020-03-08") (VStr "2020-04-07")
      "berlin-hospital.csv" "berlin-cases.csv");
  _ ← record_errors r;
  let '(e_cases, e_sick, e_critical, _, _) := r in
  mret [e_cases; e_sick; e_critical].

(** ** Study Orchestrator *)

Definition objective : Type := externals -> trial -> M (list float64).

Definition with_storage (db : gmap string study) (s : state) : state :=
  {| files := files s; commands := commands s; globals := globals s;
     storage := db; trial_params := trial_params s;
     trial_user_attrs := trial_user_attrs s |}.

Definition with_global (name : string) (v : argval) (s : state) : state :=
  {| files := files s; commands := commands s;
     globals := <[name := v]> (globals s);
     storage := storage s; trial_params := trial_params s;
     trial_user_attrs := trial_user_attrs s |}.

Definition new_trial (s : state) : state :=
  {| files := files s; commands := commands s; globals := globals s;
     storage := storage s; trial_params := ∅; trial_user_attrs := ∅ |}.

(** [create_study(study_name=name, ..., load_if_exists=True)]. *)
Definition create_study (name : string) (ndirections : nat) : M unit :=
  fun s =>
    match storage s !! name with
    | Some _ => (Ok tt, s)
    | None =>
        (Ok tt,
         with_storage
           (<[name := {| directions := ndirections; user_attrs := ∅;
                         trials := [] |}]> (storage s)) s)
    end.

(** [study.set_user_attr(k, v)]. *)
Definition study_set_user_attr (name k : string) (v : argval) : M unit :=
  fun s =>
    (Ok tt,
     with_storage
       (alter (fun st => {| directions := directions st;
                            user_attrs := <[k := v]> (user_attrs st);
                            trials := trials st |}) name (storage s)) s).

Definition set_global (name : string) (v : argval) : M unit :=
  fun s => (Ok tt, with_global name v s).

Definition store_trial (name : string) (n : nat)
    (values : result (list float64)) (s : state) : state :=
  with_storage
    (alter (fun st => {| directions := directions st;
                         user_attrs := user_attrs st;
                         trials := trials st ++
                           [{| t_number := n; t_params := trial_params s;
                               t_values := values;
                               t_user_attrs := trial_user_attrs s |}] |})
       name (storage s)) s.

(** One trial of [study.optimize]: the next trial number, the objective, and
    the trial stored with its outcome; an exception of the objective is
    raised again. *)
Definition run_trial (ext : externals) (name : string) (obj : objective)
    : M unit :=
  fun s =>
    let n := match storage s !! name with
             | Some st => length (trials st)
             | None => 0
             end in
    let '(r, s') := obj ext {| study_name := name; number := n |} (new_trial s) in
    (match r with Ok _ => Ok tt | Raise e => Raise e end,
     store_trial name n r s').

Fixpoint optimize (ext : externals) (name : string) (obj : objective)
    (n_trials : nat) : M unit :=
  match n_trials with
  | O => mret tt
  | S k => _ ← run_trial ext name obj; optimize ext name obj k
  end.

(** The parsed command line. *)
Record arguments := {
  n_trials : nat;
  arg_district : string;
  arg_scenario : string;
  arg_start : string;
  arg_end : string;
  arg_snapshot : option string;
  arg_objective : string;
}.

Definition objective_choices : list string :=
  ["unconstrained"; "ci_correction"; "multi"].

(** [parser.parse_args()] refuses an objective outside the choices. *)
Definition parse_args (a : arguments) : M arguments :=
  if decide (arg_objective a ∈ objective_choices)
  then mret a else lift (Raise SystemExit).

(** [args.__dict__.items()]. *)
Definition args_items (a : arguments) : list (string * argval) :=
  [("n_trials", VInt (Z.of_nat (n_trials a)));
   ("district", VStr (arg_district a));
   ("scenario", VStr (arg_scenario a));
   ("start", VStr (arg_start a));
   ("end", VStr (arg_end a));
   ("snapshot", match arg_snapshot a with Some s => VStr s | None => VNone end);
   ("objective", VStr (arg_objective a))].

Fixpoint copy_args (name : string) (kvs : list (string * argval)) : M unit :=
  match kvs with
  | [] => mret tt
  | (k, v) :: kvs' => _ ← study_set_user_attr name k v; copy_args name kvs'
  end.

(** The objective that the script runs for an objective mode. *)
Definition select_objective (mode : string) : objective :=
  if decide (mode = "multi") then objective_multi else objective_unconstrained.

(** The body of the script. *)
Definition main (ext : externals) (a : arguments) : M unit :=
  args ← parse_args a;
  _ ← (if decide (arg_objective args = "multi")
       then _ ← create_study (arg_objective args) 3;
            _ ← set_global "district" (VStr (arg_district args));
            set_global "scenario" (VStr (arg_scenario args))
       else create_study (arg_objective args) 1);
  _ ← copy_args (arg_objective args) (args_items args);
  let objective := select_objective (arg_objective args) in
  optimize ext (arg_objective args) objective (n_trials args).

(** The objective of each mode as the specification states it. *)
Definition specified_objective (mode : string) : option objective :=
  if decide (mode = "unconstrained") then Some objective_unconstrained
  else if decide (mode = "ci_correction") then Some objective_ci_correction
  else if decide (mode = "multi") then Some objective_multi
  else None.

(** The state of a first run: the given files, an empty study database. *)
Definition initial (fs : filesystem) : state :=
  {| files := fs; commands := []; globals := ∅; storage := ∅;
     trial_params := ∅; trial_user_attrs := ∅ |}.

(** ** The library metric in real numbers

    [sklearn.metrics.mean_squared_log_error], which [calc_multi_error]
    imports and calls, is library code: it validates its two arrays (same
    length, at least one sample, no negative value) and returns the mean
    squared error of their images under [log1p].  Logarithms are taken in
    the real numbers here. *)

Module Sklearn.

Definition negative (x : R) : bool := if Rlt_dec x 0 then true else false.

Definition log1p (x : R) : R := ln (1 + x).

Definition Rsum (l : list R) : R := foldr Rplus 0%R l.

Definition Rmean (l : list R) : R := (Rsum l / INR (length l))%R.

Definition mean_squared_error (y_true y_pred : list R) : R :=
  Rmean (zip_with (fun a p => ((a - p) * (a - p))%R) y_true y_pred).

Definition mean_squared_log_error (y_true y_pred : list R) : result R :=
  if negb (length y_true =? length y_pred)%nat then Raise ValueError
  else if (length y_true =? 0)%nat then Raise ValueError
  else if existsb negative y_true || existsb negative y_pred
       then Raise ValueError
  else Ok (mean_squared_error (map log1p y_true) (map log1p y_pred)).

(** The error as the specification words it: the mean of the squared
    differences of the natural logarithms. *)
Definition log_mean_squared_error_spec (actual predicted : list R) : R :=
  Rmean (zip_with (fun a p => ((ln a - ln p) * (ln a - ln p))%R)
           actual predicted).

End Sklearn.

(** ** Notions and sample data of the statements below *)

(** Day [i] holds one count, the double of the one positive count of the
    day [interval] days before. *)
Definition doubles (df : list sim_row) (interval : Z) (i : Z) : Prop :=
  ∃ prev today : Qc,
    nTotalInfected_at df (i - interval) = [prev]
    ∧ nTotalInfected_at df i = [today]
    ∧ (0 < prev)%Qc
    ∧ today = (Qc_of_nat 2 * prev)%Qc.

(** A simulation output of 45 days in which the count of day [k] is
    [2 ^ (k / 3) * (1 + k mod 3)]: it doubles every three days. *)
Definition doubling_row (k : nat) : sim_row :=
  {| date := EmptyString; district := "Berlin"; day := Z.of_nat k;
     nTotalInfected :=
       decimal (2 ^ (Z.of_nat k / 3) * (1 + Z.of_nat k mod 3)) 1;
     nContagiousCumulative := 0%Qc; nShowingSymptomsCumulative := 0%Qc;
     nSeriouslySick := 0%Qc; nCritical := 0%Qc |}.

Definition doubling_file : list sim_row := map doubling_row (seq 0 45).

(** A one-day simulation table with 8 contagious persons in total, and the
    reported cases of that day. *)
Definition one_day_sim : list sim_row :=
  [{| date := "2020-03-10"; district := "Berlin"; day := 1;
      nTotalInfected := decimal 8 1; nContagiousCumulative := decimal 8 1;
      nShowingSymptomsCumulative := decimal 5 1;
      nSeriouslySick := decimal 1 1; nCritical := 0%Qc |}].

Definition one_day_rki (reported : Z) : list rki_row :=
  [{| rki_date := "2020-03-10"; rki_cases := decimal reported 1 |}].

(** The same externals with the exit status of the simulator replaced. *)
Definition with_status (status : Z → Z) (ext : externals) : externals :=
  {| simulate := λ cmd fs,
       let '(rc, fs') := simulate ext cmd fs in (status rc, fs');
     sampler := sampler ext;
     mean_squared_log_error := mean_squared_log_error ext |}.

(** A simulator that writes the doubling table as the output of trial 0
    and ends with the given exit status; a sampler that proposes the lower
    bound of the range. *)
Definition sample_externals (status : Z) : externals :=
  {| simulate := λ cmd fs,
       (status,
        <["output-calibration-unconstrained/0/infections.txt" :=
            SimFile doubling_file]> fs);
     sampler := λ _ _ low _, low;
     mean_squared_log_error := λ _ _, Raise ValueError |}.

Definition sample_arguments (mode : string) : arguments :=
  {| n_trials := 1; arg_district := "Berlin";
     arg_scenario := "SnzBerlinScenario25pct2020";
     arg_start := "2020-03-10"; arg_end := "2020-05-20";
     arg_snapshot := None; arg_objective := mode |}.

(** The store once the study of a mode is created and configured. *)
Definition configured (mode : string) : state :=
  snd ((_ ← create_study mode 1;
        copy_args mode (args_items (sample_arguments mode))) (initial ∅)).

(** The commands that a run of the script issues. *)
Definition commands_of_run (ext : externals) (a : arguments) : list string :=
  commands (snd (main ext a (initial ∅))).

(** ** Notions of the further properties *)

(** A row without a case: missing, or zero. *)
Definition no_case (x : option Qc) : Prop := x = None ∨ x = Some 0%Qc.

(** The table with every [nTotalInfected] count multiplied by [k]. *)
Definition scale_infected (k : Qc) (rows : list sim_row) : list sim_row :=
  map (λ r, {| date := date r; district := district r; day := day r;
               nTotalInfected := (k * nTotalInfected r)%Qc;
               nContagiousCumulative := nContagiousCumulative r;
               nShowingSymptomsCumulative := nShowingSymptomsCumulative r;
               nSeriouslySick := nSeriouslySick r;
               nCritical := nCritical r |}) rows.

(** A row whose value, where it has one, is at most [x]; is below [x]. *)
Definition at_most (x : Qc) (r : string * option Qc) : Prop :=
  ∀ y, r.2 = Some y → (y <= x)%Qc.

Definition below (x : Qc) (r : string * option Qc) : Prop :=
  ∀ y, r.2 = Some y → (y < x)%Qc.

(** The row of label [d] holds the first largest value [x] of the column. *)
Definition first_largest (l : list (string * option Qc)) (d : string) (x : Qc)
    : Prop :=
  ∃ l1 l2, l = l1 ++ (d, Some x) :: l2
           ∧ Forall (below x) l1 ∧ Forall (at_most x) l2.

(** A computation that leaves the study database and the module globals
    as they are and runs at most [n] commands, exactly [n] when it ends
    without an exception. *)
Definition frames {A} (n : nat) (m : M A) : Prop :=
  ∀ s, storage (m s).2 = storage s
       ∧ globals (m s).2 = globals s
       ∧ ∃ cmds, commands (m s).2 = commands s ++ cmds
                 ∧ length cmds ≤ n
                 ∧ (is_ok (m s).1 = true → length cmds = n).

(** A computation whose result, when it has one, satisfies [Q]. *)
Definition ensures {A} (Q : A → Prop) (m : M A) : Prop :=
  ∀ s a, (m s).1 = Ok a → Q a.

(** The commands that a computation adds to those run before. *)
Definition runs_once {A} (m : M A) (s : state) : Prop :=
  ∃ cmds, commands (m s).2 = commands s ++ cmds
          ∧ length cmds ≤ 1
          ∧ (is_ok (m s).1 = true → length cmds = 1).

(** An attribute of the study of a trial, when the study and the attribute
    exist. *)
Definition study_attr (s : state) (t : trial) (key : string) : option argval :=
  st ← storage s !! study_name t; user_attrs st !! key.

(** A study with the trials [new] appended. *)
Definition with_trials (st : study) (new : list frozen_trial) : study :=
  {| directions := directions st; user_attrs := user_attrs st;
     trials := trials st ++ new |}.

(** An objective that leaves the study database and the globals alone. *)
Definition keeps_study (obj : objective) : Prop :=
  ∀ ext t s, storage (obj ext t s).2 = storage s
             ∧ globals (obj ext t s).2 = globals s.

(** The trials that a run of [n] trials adds, by the way the run ends:
    [n] scored trials, or scored trials and then the one that failed. *)
Definition run_outcome (r : result unit) (n : nat) (new : list frozen_trial)
    : Prop :=
  match r with
  | Ok _ => length new = n ∧ Forall (λ tr, is_ok (t_values tr) = true) new
  | Raise e =>
      ∃ scored failed, new = scored ++ [failed]
        ∧ Forall (λ tr, is_ok (t_values tr) = true) scored
        ∧ t_values failed = Raise e
  end.

(** The study that [create_study] makes when there is none of the name. *)
Definition fresh_study (ndirections : nat) : study :=
  {| directions := ndirections; user_attrs := ∅; trials := [] |}.

(** A study with the run configuration copied over its attributes. *)
Definition with_attrs (st : study) (kvs : list (string * argval)) : study :=
  {| directions := directions st;
     user_attrs := foldl (λ m kv, <[kv.1 := kv.2]> m) (user_attrs st) kvs;
     trials := trials st |}.

(** The study that the script opens: the stored one, or a fresh one. *)
Definition opened_study (s : state) (a : arguments) : study :=
  default
    (fresh_study (if decide (arg_objective a = "multi") then 3 else 1))
    (storage s !! arg_objective a).

(** ** The derived columns in double precision

    The columns of [read_data] as pandas computes them, on IEEE binary64
    numbers with their rounding; the definitions above give the values
    that these approximate.  Sums are taken from left to right: pandas
    sums a window incrementally and a column in blocks, which gives the
    same double wherever the sums are exact, as they are on counts. *)

Module Binary64.
Import PrimFloat.

Definition of_nat (n : nat) : float := Nat.iter n (λ x, x + 1)%float 0%float.

Definition fsum (l : list float) : float := foldl add 0%float l.

Definition valid (l : list float) : list float :=
  filter (λ x, is_nan x = false) l.

(** [Series.mean()]: missing values are skipped. *)
Definition series_mean (l : list float) : float :=
  match valid l with
  | [] => nan
  | obs => (fsum obs / of_nat (length obs))%float
  end.

(** [Series.diff(1)]. *)
Fixpoint diff_from (prev : float) (l : list float) : list float :=
  match l with
  | [] => []
  | x :: l' => (x - prev)%float :: diff_from x l'
  end.

Definition diff1 (l : list float) : list float :=
  match l with
  | [] => []
  | x :: l' => nan :: diff_from x l'
  end.

Definition trailing (window : nat) (l : list float) (i : nat) : list float :=
  drop (S i - window) (take (S i) l).

(** [.rolling(window).mean()] with [min_periods = window]. *)
Definition window_mean (window : nat) (w : list float) : float :=
  let obs := valid w in
  if (window <=? length obs)%nat
  then match obs with
       | [] => nan
       | _ => (fsum obs / of_nat (length obs))%float
       end
  else nan.

Definition rolling_mean (window : nat) (l : list float) : list float :=
  map (λ i, window_mean window (trailing window l i)) (seq 0 (length l)).

(** [s / s.mean()]. *)
Definition normalize (smoothed : list float) : list float :=
  map (λ x, (x / series_mean smoothed)%float) smoothed.

Definition sim_casesNorm (window : nat) (cumulative : list float) : list float :=
  normalize (rolling_mean window (diff1 cumulative)).

Definition rki_casesNorm (window : nat) (cases : list float) : list float :=
  normalize (rolling_mean window cases).

Definition scale (k : float) (l : list float) : list float := map (mul k) l.

End Binary64.

(** ** Metrics that show what [calc_multi_error] hands over *)

Definition is_nan (x : float64) : bool :=
  match x with NaN => true | _ => false end.



(** Seven days of March 2020: a simulation with growing counts, the
    hospital counts, and three reported cases on each day. *)
Definition march_days : list string :=
  ["2020-03-01"; "2020-03-02"; "2020-03-03"; "2020-03-04"; "2020-03-05";
   "2020-03-06"; "2020-03-07"].

Definition march_sim : list sim_row :=
  imap (λ k d, {| date := d; district := "Berlin"; day := Z.of_nat k;
                  nTotalInfected := decimal (Z.of_nat (k * k)) 1;
                  nContagiousCumulative := decimal (Z.of_nat (k * k)) 1;
                  nShowingSymptomsCumulative := decimal (Z.of_nat (k * k)) 1;
                  nSeriouslySick := decimal (Z.of_nat k) 1;
                  nCritical := decimal 1 1 |}) march_days.

Definition march_hospital : list hospital_row :=
  map (λ d, {| Datum := d; Stationaere_Behandlung := decimal 2 1;
               Intensivmedizin := decimal 1 1 |}) march_days.

Definition march_rki : list rki_row :=
  map (λ d, {| rki_date := d; rki_cases := decimal 3 1 |}) march_days.

Definition march_files : filesystem :=
  {[ "infections.txt" := SimFile march_sim;
     "berlin-hospital.csv" := HospitalFile march_hospital;
     "berlin-cases.csv" := RkiFile march_rki ]}.

(** ** Calendar dates *)

Definition digit (c : ascii) : option nat :=
  let n := nat_of_ascii c in
  if (48 <=? n)%nat && (n <=? 57)%nat then Some (n - 48) else None.

Definition days_in_month (year month : nat) : nat :=
  match month with
  | 1 | 3 | 5 | 7 | 8 | 10 | 12 => 31
  | 4 | 6 | 9 | 11 => 30
  | 2 => if ((year mod 4 =? 0) && negb (year mod 100 =? 0)
             || (year mod 400 =? 0))%nat then 29 else 28
  | _ => 0
  end.

(** A day of the calendar written year-month-day with four, two and two
    digits, in the years that a pandas timestamp covers: the strings whose
    order is the order of the dates that pandas reads from them. *)
Definition iso_date (s : string) : bool :=
  match s with
  | String y1 (String y2 (String y3 (String y4 (String h1
      (String m1 (String m2 (String h2 (String d1 (String d2
        EmptyString))))))))) =>
      match digit y1, digit y2, digit y3, digit y4,
            digit m1, digit m2, digit d1, digit d2 with
      | Some a, Some b, Some c, Some d, Some e, Some f, Some g, Some h =>
          let year := a * 1000 + b * 100 + c * 10 + d in
          let month := e * 10 + f in
          let day_ := g * 10 + h in
          Ascii.eqb h1 "-"%char && Ascii.eqb h2 "-"%char
          && (1678 <=? year)%nat && (year <=? 2261)%nat
          && (1 <=? day_)%nat && (day_ <=? days_in_month year month)%nat
      | _, _, _, _, _, _, _, _ => false
      end
  | _ => false
  end.

(** Every scored trial of the study has as many values as the study has
    directions. *)
Definition scores_match (st : study) : Prop :=
  Forall (λ tr, ∀ vs, t_values tr = Ok vs → length vs = directions st)
    (trials st).

(** ** The age histogram of [analysis.py]

    [analysis.py] counts the infection events by the age of the infected
    person: [personAge] maps a person to an age, [infectionsByAge] starts
    with a zero for each age of [range(100)], and a subscript of a dict
    with a key that it does not hold (an age outside the range, or the
    [None] that [personAge.get] gives for an unknown person) raises
    [KeyError]. *)

(** [dict.fromkeys(keys, v)]. *)
Definition fromkeys (keys : list Z) (v : Z) : gmap Z Z :=
  foldr (λ k m, <[k := v]> m) ∅ keys.

(** The loop [for abc in ...: infectionsByAge[personAge.get(abc)] += 1]. *)
Fixpoint infectionsByAge_loop (personAge : gmap string Z)
    (infected : list string) (hist : gmap Z Z) : result (gmap Z Z) :=
  match infected with
  | [] => Ok hist
  | abc :: infected' =>
      match personAge !! abc with
      | None => Raise KeyError
      | Some age =>
          match hist !! age with
          | None => Raise KeyError
          | Some c =>
              infectionsByAge_loop personAge infected'
                (<[age := (c + 1)%Z]> hist)
          end
      end
  end.

Definition infectionsByAge (personAge : gmap string Z)
    (infected : list string) : result (gmap Z Z) :=
  infectionsByAge_loop personAge infected (fromkeys (range 0 100) 0).

(** The number of events whose person has the age [age]. *)
Definition events_of_age (personAge : gmap string Z) (infected : list string)
    (age : Z) : Z :=
  Z.of_nat (length (filter (λ abc, personAge !! abc = Some age) infected)).

(** Every infected person has an age, and one of 0 to 99. *)
Definition ages_in_range (personAge : gmap string Z) (infected : list string)
    : Prop :=
  ∀ abc, abc ∈ infected →
    ∃ age, personAge !! abc = Some age ∧ (0 ≤ age < 100)%Z.

(** * Properties *)

(** Closed equations between computed values are decided by evaluation. *)
Ltac by_evaluation :=
  apply (bool_decide_unpack _); vm_compute; exact I.

(** ** [percentage_error] *)

Section percentage_error.
Context (actual predicted : list float64).

Local Abbreviation entry := (percentage_error_entry actual).

Lemma percentage_error_loop_cons j js res :
  percentage_error_loop actual predicted (j :: js) res =
    a ← getitem actual j;
    p ← getitem predicted j;
    percentage_error_loop actual predicted js (<[j := entry a p]> res).
Proof.
  simpl. destruct (getitem actual j) as [a|e]; simpl; [|done].
  unfold percentage_error_entry. by destruct (fge _ _).
Qed.

Lemma percentage_error_loop_ok js res :
  (∀ j, j ∈ js → j < length actual) →
  length actual ≤ length predicted →
  ∃ res', percentage_error_loop actual predicted js res = Ok res'
          ∧ length res' = length res.
Proof.
  revert res. induction js as [|j js IH]; intros res Hjs Hlen.
  { by exists res. }
  rewrite percentage_error_loop_cons.
  assert (Hj : j < length actual) by (apply Hjs; left).
  destruct (lookup_lt_is_Some_2 actual j Hj) as [a Ha].
  destruct (lookup_lt_is_Some_2 predicted j ltac:(lia)) as [p Hp].
  unfold getitem. rewrite Ha, Hp. simpl.
  destruct (IH (<[j := entry a p]> res)) as (res' & Hres' & Hl); [|done|].
  { intros k Hk. apply Hjs. by right. }
  exists res'. split; [done|]. by rewrite Hl, length_insert.
Qed.

Lemma percentage_error_loop_other js res res' i :
  percentage_error_loop actual predicted js res = Ok res' →
  i ∉ js → res' !! i = res !! i.
Proof.
  revert res. induction js as [|j js IH]; intros res Hrun Hi.
  { simpl in Hrun. by inversion Hrun. }
  rewrite percentage_error_loop_cons in Hrun.
  destruct (getitem actual j) as [a|]; simpl in Hrun; [|done].
  destruct (getitem predicted j) as [p|]; simpl in Hrun; [|done].
  apply not_elem_of_cons in Hi as [Hne Hi].
  rewrite (IH _ Hrun Hi). by apply list_lookup_insert_ne.
Qed.

Lemma percentage_error_loop_at js res res' i a p :
  percentage_error_loop actual predicted js res = Ok res' →
  i ∈ js → i < length res →
  actual !! i = Some a → predicted !! i = Some p →
  res' !! i = Some (entry a p).
Proof.
  revert res. induction js as [|j js IH]; intros res Hrun Hi Hlen Ha Hp.
  { by apply elem_of_nil in Hi. }
  rewrite percentage_error_loop_cons in Hrun.
  destruct (getitem actual j) as [a'|] eqn:Ea; simpl in Hrun; [|done].
  destruct (getitem predicted j) as [p'|] eqn:Ep; simpl in Hrun; [|done].
  destruct (decide (i ∈ js)) as [Hin|Hnin].
  - apply (IH _ Hrun Hin); [by rewrite length_insert|done..].
  - apply elem_of_cons in Hi as [->|]; [|done].
    rewrite (percentage_error_loop_other _ _ _ _ Hrun Hnin).
    unfold getitem in Ea, Ep. rewrite Ha in Ea. rewrite Hp in Ep.
    inversion Ea; inversion Ep; subst.
    by apply list_lookup_insert_eq.
Qed.

Lemma percentage_error_loop_entries junk :
  length actual ≤ length predicted →
  ∃ res, percentage_error junk actual predicted = Ok res
         ∧ length res = length actual
         ∧ ∀ i a p, actual !! i = Some a → predicted !! i = Some p →
                    res !! i = Some (entry a p).
Proof.
  intros Hlen. unfold percentage_error.
  destruct (percentage_error_loop_ok (seq 0 (length actual))
              (np_empty (length actual) junk)) as (res & Hres & Hl);
    [|done|].
  { intros j Hj. apply elem_of_seq in Hj. lia. }
  unfold np_empty in Hl. rewrite length_replicate in Hl.
  exists res. split_and!; [done..|].
  intros i a p Ha Hp.
  assert (i < length actual) by by eapply lookup_lt_Some.
  eapply percentage_error_loop_at; [done| |by unfold np_empty; rewrite length_replicate|done..].
  apply elem_of_seq. lia.
Qed.
End percentage_error.

Lemma flt_not_fge x y : flt x y = true → fge x y = false.
Proof. unfold flt, fge. by destruct (fcompare x y) as [[]|]. Qed.

Lemma fdiv_zero_not_finite x : is_finite (fdiv x (Fin 0%Qc)) = false.
Proof.
  destruct x as [q| | |]; simpl; [|done..].
  replace (0 ?= 0)%Qc with Eq by done. by destruct (q ?= 0)%Qc.
Qed.

(** C5: on arrays of equal length [percentage_error] returns an array of
    that length whose entry [i] is [(actual[i] - predicted[i]) / actual[i]]
    when [|actual[i]| >= 15] and
    [(actual[i] - predicted[i]) / mean(actual)] when [|actual[i]| < 15].
    For [actual = [10, 100]] and [predicted = [12, 80]] the mean is 55,
    entry 0 is [(10 - 12) / 55] and entry 1 is [(100 - 80) / 100]. *)
Theorem percentage_error_entries (junk : float64)
    (actual predicted : list float64) :
  length actual = length predicted →
  (∃ res, percentage_error junk actual predicted = Ok res
      ∧ length res = length actual
      ∧ ∀ i a p, actual !! i = Some a → predicted !! i = Some p →
          (fge (fabs a) (of_Z 15) = true →
             res !! i = Some (fdiv (fsub a p) a))
          ∧ (flt (fabs a) (of_Z 15) = true →
             res !! i = Some (fdiv (fsub a p) (np_mean actual))))
  ∧ np_mean [of_Z 10; of_Z 100] = of_Z 55
  ∧ percentage_error junk [of_Z 10; of_Z 100] [of_Z 12; of_Z 80]
    = Ok [fdiv (fsub (of_Z 10) (of_Z 12)) (of_Z 55);
          fdiv (fsub (of_Z 100) (of_Z 80)) (of_Z 100)].
Proof.
  intros Hlen. split; [|split; by_evaluation].
  destruct (percentage_error_loop_entries actual predicted junk)
    as (res & Hres & Hl & Hentries); [lia|].
  exists res. split_and!; [done..|].
  intros i a p Ha Hp. rewrite (Hentries i a p Ha Hp).
  unfold percentage_error_entry. split; intros Hcmp.
  - by rewrite Hcmp.
  - by rewrite (flt_not_fge _ _ Hcmp).
Qed.

Lemma percentage_error_entries_witness :
  ∃ res, percentage_error NaN [of_Z 10; of_Z 100] [of_Z 12; of_Z 80] = Ok res
         ∧ length res = 2.
Proof.
  destruct (percentage_error_entries NaN [of_Z 10; of_Z 100]
              [of_Z 12; of_Z 80])
    as [(res & Hres & Hl & _) _]; [reflexivity|].
  exists res. split; [exact Hres|exact Hl].
Defined.

(** C10: when every [|actual[j]| < 15] and the mean of [actual] is zero,
    [percentage_error] divides by zero in its fallback branch without
    raising: it returns an array of which no entry is a finite number. *)
Theorem percentage_error_zero_mean (junk : float64)
    (actual predicted : list float64) :
  length actual = length predicted →
  Forall (λ a, flt (fabs a) (of_Z 15) = true) actual →
  np_mean actual = Fin 0%Qc →
  ∃ res, percentage_error junk actual predicted = Ok res
         ∧ length res = length actual
         ∧ 0 < length res
         ∧ Forall (λ x, is_finite x = false) res.
Proof.
  intros Hlen Hsmall Hmean.
  destruct (percentage_error_loop_entries actual predicted junk)
    as (res & Hres & Hl & Hentries); [lia|].
  exists res. split_and!; [done..| |].
  - rewrite Hl. destruct actual; [discriminate Hmean|simpl; lia].
  - apply Forall_lookup. intros i x Hx.
    assert (Hi : i < length actual) by (rewrite <- Hl; by eapply lookup_lt_Some).
    destruct (lookup_lt_is_Some_2 actual i Hi) as [a Ha].
    destruct (lookup_lt_is_Some_2 predicted i ltac:(lia)) as [p Hp].
    rewrite (Hentries i a p Ha Hp) in Hx. inversion Hx; subst x.
    unfold percentage_error_entry.
    rewrite (flt_not_fge _ _ (proj1 (Forall_lookup _ _) Hsmall i a Ha)).
    rewrite Hmean. apply fdiv_zero_not_finite.
Qed.

Lemma percentage_error_zero_mean_witness :
  ∃ res, percentage_error (of_Z 7) [of_Z 0; of_Z 0] [of_Z 1; of_Z 0] = Ok res
         ∧ length res = 2
         ∧ 0 < length res
         ∧ Forall (λ x, is_finite x = false) res.
Proof.
  apply (percentage_error_zero_mean (of_Z 7) [of_Z 0; of_Z 0]
           [of_Z 1; of_Z 0]).
  - reflexivity.
  - repeat constructor.
  - by_evaluation.
Defined.

(** ** Data Loader *)

Lemma map_fmap {A B} (f : A → B) (l : list A) : map f l = f <$> l.
Proof. reflexivity. Qed.

Lemma lookup_map {A B} (f : A → B) (l : list A) (i : nat) :
  map f l !! i = f <$> l !! i.
Proof. apply list_lookup_fmap. Qed.

Lemma Qc_of_nat_S (n : nat) : Qc_of_nat (S n) = (Qc_of_nat n + 1)%Qc.
Proof.
  apply Qc_is_canon. unfold Qc_of_nat, Qcplus, Q2Qc. simpl this.
  rewrite !Qred_correct. rewrite Nat2Z.inj_succ. unfold Z.succ.
  rewrite inject_Z_plus. reflexivity.
Qed.

Lemma Qc_of_nat_nonzero (n : nat) : 0 < n → Qc_of_nat n ≠ 0%Qc.
Proof.
  intros Hn Heq. apply (f_equal this) in Heq.
  unfold Qc_of_nat, Q2Qc in Heq. simpl this in Heq.
  assert (Hq : (inject_Z (Z.of_nat n) == 0)%Q).
  { rewrite <- (Qred_correct (inject_Z (Z.of_nat n))). by rewrite Heq. }
  unfold Qeq in Hq. simpl in Hq. lia.
Qed.

Section scaling.
Context (k : Qc).










Hypothesis k_pos : (0 < k)%Qc.



End scaling.




Section constant_series.
Context (c : Qc).

Lemma Qcsum_replicate (m : nat) :
  Qcsum (replicate m c) = (Qc_of_nat m * c)%Qc.
Proof.
  induction m as [|m IH].
  - apply Qc_is_canon. reflexivity.
  - change (Qcsum (replicate (S m) c)) with (c + Qcsum (replicate m c))%Qc.
    rewrite IH, Qc_of_nat_S. ring.
Qed.

Lemma obs_mean_replicate (m : nat) :
  0 < m → obs_mean (replicate m c) = Some c.
Proof.
  intros Hm. destruct m as [|m]; [lia|].
  unfold obs_mean. change (replicate (S m) c) with (c :: replicate m c) at 1.
  cbv iota beta. rewrite Qcsum_replicate, length_replicate.
  f_equal. field. by apply Qc_of_nat_nonzero.
Qed.





End constant_series.




(** ** [infection_rate] *)

Lemma elem_of_range (lo hi i : Z) : (lo ≤ i < hi)%Z → i ∈ range lo hi.
Proof.
  intros Hi. unfold range. rewrite map_fmap. apply list_elem_of_fmap.
  exists (Z.to_nat (i - lo)). split; [lia|]. apply elem_of_seq. lia.
Qed.

Lemma range_bounds (lo hi i : Z) : i ∈ range lo hi → (lo ≤ i < hi)%Z.
Proof.
  unfold range. rewrite map_fmap. intros Hi.
  apply list_elem_of_fmap in Hi as (k & -> & Hk). apply elem_of_seq in Hk. lia.
Qed.

Section infection_rate.
Context (df : list sim_row) (interval : Z).

Lemma infection_rate_loop_doubling (days : list Z) (rates : list Qc) :
  (∀ i, i ∈ days → doubles df interval i) →
  infection_rate_loop df interval days rates
  = Ok (rates ++ map (λ _, Qc_of_nat 2) days).
Proof.
  revert rates. induction days as [|i days IH]; intros rates Hdays.
  { simpl. by rewrite app_nil_r. }
  destruct (Hdays i) as (prev & today & Hprev & Htoday & Hpos & Hdouble);
    [left|].
  simpl. rewrite Hprev, Htoday. simpl.
  unfold py_truediv. destruct (decide (prev = 0%Qc)) as [->|Hnz].
  { by apply Qclt_not_eq in Hpos. }
  simpl. rewrite IH by (intros j Hj; apply Hdays; by right).
  rewrite <- app_assoc. simpl. do 3 f_equal. subst today. by field.
Qed.

Lemma infection_rate_loop_absent (days : list Z) (rates : list Qc) (i : Z) :
  i ∈ days →
  nTotalInfected_at df (i - interval) = [] ∨ nTotalInfected_at df i = [] →
  is_ok (infection_rate_loop df interval days rates) = false.
Proof.
  revert rates. induction days as [|i' days IH]; intros rates Hi Habsent.
  { by apply elem_of_nil in Hi. }
  simpl.
  destruct (float_of_series (nTotalInfected_at df (i' - interval)))
    as [prev|] eqn:Eprev; simpl; [|done].
  destruct (float_of_series (nTotalInfected_at df i'))
    as [today|] eqn:Etoday; simpl; [|done].
  destruct (py_truediv today prev) as [r|]; simpl; [|done].
  apply elem_of_cons in Hi as [->|Hi]; [|by apply IH].
  destruct Habsent as [Ha|Ha]; rewrite Ha in *; discriminate.
Qed.
End infection_rate.

Lemma infection_rate_read (fs : filesystem) (f : string) (d : argval)
    (rows : list sim_row) :
  fs !! f = Some (SimFile rows) →
  infection_rate fs f d =
    rates ← infection_rate_loop (by_district d rows) 3 (range 25 40) [];
    Ok (np_mean (map Fin rates),
        np_mean (map (λ r, np_square (fsub r (Fin (Qc_of_nat 2))))
                   (map Fin rates))).
Proof.
  intros Hfile. unfold infection_rate, infection_rate_of, read_sim.
  by rewrite Hfile.
Qed.

(** C7: when the one [nTotalInfected] count of each day [i] of 25..39 is
    the double of the one, positive, count of day [i - 3],
    [infection_rate] with its defaults (target rate 2, interval 3) returns
    the mean ratio 2 and the mean squared deviation 0; when a day of 22..39
    (the days it reads) has no row in the district, it fails. *)
Theorem infection_rate_doubling (fs : filesystem) (f : string) (d : argval)
    (rows : list sim_row) :
  fs !! f = Some (SimFile rows) →
  ((∀ i, (25 ≤ i < 40)%Z → doubles (by_district d rows) 3 i) →
     infection_rate fs f d = Ok (of_Z 2, of_Z 0))
  ∧ (∀ j, (22 ≤ j < 40)%Z → nTotalInfected_at (by_district d rows) j = [] →
       is_ok (infection_rate fs f d) = false).
Proof.
  intros Hfile. rewrite (infection_rate_read _ _ _ _ Hfile). split.
  - intros Hdouble.
    rewrite (infection_rate_loop_doubling _ _ (range 25 40) []).
    + by_evaluation.
    + intros i Hi. apply Hdouble. by apply range_bounds.
  - intros j Hj Habsent.
    assert (Hloop : is_ok (infection_rate_loop (by_district d rows) 3
                             (range 25 40) []) = false).
    { destruct (decide (j < 25)%Z) as [Hlt|Hge].
      - apply (infection_rate_loop_absent _ _ _ _ (j + 3));
          [apply elem_of_range; lia|].
        left. by replace (j + 3 - 3)%Z with j by lia.
      - apply (infection_rate_loop_absent _ _ _ _ j);
          [apply elem_of_range; lia|by right]. }
    by destruct (infection_rate_loop _ _ _ _).
Qed.

Lemma infection_rate_doubling_witness :
  infection_rate {[ "infections.txt" := SimFile doubling_file ]}
    "infections.txt" (VStr "Berlin") = Ok (of_Z 2, of_Z 0).
Proof.
  apply (infection_rate_doubling _ _ _ doubling_file).
  - reflexivity.
  - intros i Hi.
    assert (Hcases : i ∈ range 25 40) by by apply elem_of_range.
    vm_compute in Hcases.
    repeat (apply elem_of_cons in Hcases as [->|Hcases];
            [eexists _, _; split_and!;
               [reflexivity|reflexivity|reflexivity|by_evaluation]|]).
    by apply elem_of_nil in Hcases.
Defined.

(** ** The log-scaled error *)

Module SklearnFacts.
Import Sklearn.

Lemma negative_false (x : R) : (0 <= x)%R → negative x = false.
Proof. intros Hx. unfold negative. destruct (Rlt_dec x 0); [lra|done]. Qed.

Lemma negative_true (x : R) : (x < 0)%R → negative x = true.
Proof. intros Hx. unfold negative. destruct (Rlt_dec x 0); [done|lra]. Qed.

Lemma existsb_negative_false (l : list R) :
  Forall (λ x, (0 <= x)%R) l → existsb negative l = false.
Proof.
  induction 1 as [|x l Hx _ IH]; [done|].
  simpl. by rewrite negative_false, IH.
Qed.

Lemma existsb_negative_true (l : list R) :
  Exists (λ x, (x < 0)%R) l → existsb negative l = true.
Proof.
  induction 1 as [x l Hx|x l _ IH]; simpl.
  - by rewrite negative_true.
  - rewrite IH. by destruct (negative x).
Qed.

Lemma zip_with_map {A B C} (f : B → B → C) (g : A → B) (l1 l2 : list A) :
  zip_with f (map g l1) (map g l2) = zip_with (λ a p, f (g a) (g p)) l1 l2.
Proof.
  revert l2. induction l1 as [|x l1 IH]; intros [|y l2]; simpl; [done..|].
  by rewrite IH.
Qed.

Lemma mean_squared_log_error_value (actual predicted : list R) :
  length actual = length predicted →
  0 < length actual →
  Forall (λ x, (0 <= x)%R) actual → Forall (λ x, (0 <= x)%R) predicted →
  mean_squared_log_error actual predicted
  = Ok (Rmean (zip_with
                 (λ a p, ((ln (1 + a) - ln (1 + p))
                          * (ln (1 + a) - ln (1 + p)))%R)
                 actual predicted)).
Proof.
  intros Hlen Hpos Ha Hp. unfold mean_squared_log_error.
  rewrite <- Hlen, Nat.eqb_refl. simpl.
  destruct (Nat.eqb_spec (length actual) 0) as [|_]; [lia|].
  rewrite (existsb_negative_false _ Ha), (existsb_negative_false _ Hp).
  simpl. unfold mean_squared_error. by rewrite zip_with_map.
Qed.

(** C2, as the code has it: on two arrays of one length, not empty and
    without a negative value (zeros included), the log-scaled error of
    [calc_multi_error] is the mean over [i] of
    [(ln (1 + actual[i]) - ln (1 + predicted[i]))^2]; it fails when an
    array holds a negative value. *)
Theorem mean_squared_log_error_log1p (actual predicted : list R) :
  length actual = length predicted →
  0 < length actual →
  (Forall (λ x, (0 <= x)%R) actual ∧ Forall (λ x, (0 <= x)%R) predicted →
     mean_squared_log_error actual predicted
     = Ok (Rmean (zip_with
                    (λ a p, ((ln (1 + a) - ln (1 + p))
                             * (ln (1 + a) - ln (1 + p)))%R)
                    actual predicted)))
  ∧ (Exists (λ x, (x < 0)%R) actual ∨ Exists (λ x, (x < 0)%R) predicted →
       mean_squared_log_error actual predicted = Raise ValueError).
Proof.
  intros Hlen Hpos. split.
  - intros [Ha Hp]. by apply mean_squared_log_error_value.
  - unfold mean_squared_log_error.
    rewrite <- Hlen, Nat.eqb_refl. simpl.
    destruct (Nat.eqb_spec (length actual) 0) as [|_]; [lia|].
    intros [Ha|Hp].
    + by rewrite (existsb_negative_true _ Ha).
    + rewrite (existsb_negative_true _ Hp). by rewrite orb_true_r.
Qed.

Lemma mean_squared_log_error_log1p_witness :
  mean_squared_log_error [0%R] [0%R]
  = Ok (Rmean [((ln (1 + 0) - ln (1 + 0)) * (ln (1 + 0) - ln (1 + 0)))%R]).
Proof.
  apply (mean_squared_log_error_log1p [0%R] [0%R]).
  - reflexivity.
  - simpl. lia.
  - split; repeat constructor; lra.
Defined.

(** C2 fails as worded: on the positive arrays [[1]] and [[3]] the error is
    not the squared difference of the logarithms, and on [[0]] and [[0]]
    the computation does not fail but returns 0. *)
Lemma mean_squared_log_error_not_ln :
  mean_squared_log_error [1%R] [3%R]
    ≠ Ok (log_mean_squared_error_spec [1%R] [3%R])
  ∧ mean_squared_log_error [0%R] [0%R] = Ok 0%R.
Proof.
  split.
  - rewrite (mean_squared_log_error_value [1%R] [3%R]);
      [|reflexivity|simpl; lia|repeat constructor; lra..].
    intros Heq. injection Heq as Heq.
    unfold log_mean_squared_error_spec, Rmean, Rsum in Heq. simpl in Heq.
    rewrite ln_1 in Heq.
    replace (1 + 3)%R with (2 * 2)%R in Heq by lra.
    replace (1 + 1)%R with 2%R in Heq by lra.
    rewrite ln_mult in Heq by lra.
    assert (H2 : (0 < ln 2)%R) by (rewrite <- ln_1; apply ln_increasing; lra).
    assert (H3 : (ln 2 < ln 3)%R) by (apply ln_increasing; lra).
    nra.
  - rewrite (mean_squared_log_error_value [0%R] [0%R]);
      [|reflexivity|simpl; lia|repeat constructor; lra..].
    f_equal. unfold Rmean, Rsum. simpl. lra.
Qed.

End SklearnFacts.

(** ** The dark figure *)

Lemma tail1_last {A} (l : list A) (x : A) : last l = Some x → tail1 l = [x].
Proof.
  intros Hlast. apply last_Some in Hlast as [l' ->].
  unfold tail1. rewrite length_app. simpl.
  replace (length l' + 1 - 1) with (length l') by lia.
  by rewrite drop_app_length.
Qed.

Lemma last_map {A B} (f : A → B) (l : list A) (x : A) :
  last l = Some x → last (map f l) = Some (f x).
Proof.
  intros Hlast. apply last_Some in Hlast as [l' ->].
  rewrite map_app. simpl. by rewrite last_snoc.
Qed.

Lemma series_truediv_aligned (i : string) (x y : Qc) :
  series_truediv [(i, x)] [(i, y)] = [(i, fdiv (Fin x) (Fin y))].
Proof.
  unfold series_truediv. simpl.
  rewrite decide_True by done. simpl.
  rewrite filter_cons_False; [done|].
  simpl. intros Hnot. apply Hnot. by left.
Qed.

Lemma series_truediv_apart (i j : string) (x y : Qc) :
  i ≠ j → series_truediv [(i, x)] [(j, y)] = [(i, NaN); (j, NaN)].
Proof.
  intros Hne. unfold series_truediv. simpl.
  rewrite decide_False by done. simpl.
  rewrite filter_cons_True; [done|].
  simpl. intros Hin. apply list_elem_of_singleton in Hin. done.
Qed.

Lemma dunkelziffer_last (df : list sim_frame_row) (rki : list rki_frame_row)
    (a : sim_frame_row) (b : rki_frame_row) :
  last df = Some a → last rki = Some b →
  dunkelziffer df rki =
    float_of_series
      (map snd
         (series_truediv
            [(date (srow a), nContagiousCumulative (srow a))]
            [(rki_date (rrow b), casesCumulative b)])).
Proof.
  intros Ha Hb. unfold dunkelziffer.
  rewrite (tail1_last _ _ (last_map _ _ _ Ha)).
  by rewrite (tail1_last _ _ (last_map _ _ _ Hb)).
Qed.

(** When the two tables end on different days, the quotient has two rows
    and is no number. *)
Lemma dunkelziffer_apart (df : list sim_frame_row) (rki : list rki_frame_row)
    (a : sim_frame_row) (b : rki_frame_row) :
  last df = Some a → last rki = Some b →
  date (srow a) ≠ rki_date (rrow b) →
  dunkelziffer df rki = Raise TypeError.
Proof.
  intros Ha Hb Hne. rewrite (dunkelziffer_last _ _ _ _ Ha Hb).
  by rewrite series_truediv_apart.
Qed.

(** C4, as the code has it: when the simulated and the reported table end
    on the same day of the comparison window, the dark figure is the last
    simulated cumulative contagious count over the last reported
    cumulative count; when that last reported count is zero the
    computation does not fail: the ratio is an infinity or NaN. *)
Theorem dunkelziffer_ratio (df : list sim_frame_row) (rki : list rki_frame_row)
    (a : sim_frame_row) (b : rki_frame_row) :
  last df = Some a → last rki = Some b →
  date (srow a) = rki_date (rrow b) →
  dunkelziffer df rki
    = Ok (fdiv (Fin (nContagiousCumulative (srow a))) (Fin (casesCumulative b)))
  ∧ (casesCumulative b = 0%Qc →
       ∃ x, dunkelziffer df rki = Ok x ∧ is_finite x = false).
Proof.
  intros Ha Hb Hdate. rewrite (dunkelziffer_last _ _ _ _ Ha Hb).
  rewrite Hdate, series_truediv_aligned. cbn [map snd float_of_series].
  split; [done|].
  intros ->. eexists. split; [done|]. apply fdiv_zero_not_finite.
Qed.

Lemma dunkelziffer_ratio_witness :
  dunkelziffer (sim_frame 5 one_day_sim) (rki_frame 5 (one_day_rki 2))
  = Ok (fdiv (Fin (decimal 8 1)) (Fin (0 + decimal 2 1)%Qc)).
Proof.
  exact (proj1 (dunkelziffer_ratio (sim_frame 5 one_day_sim)
                  (rki_frame 5 (one_day_rki 2)) _ _ eq_refl eq_refl eq_refl)).
Defined.

(** C4 fails as worded: with no reported case the last reported cumulative
    count is zero, and the dark figure is computed, as an infinity. *)
Lemma dunkelziffer_zero_reported :
  dunkelziffer (sim_frame 5 one_day_sim) (rki_frame 5 (one_day_rki 0))
  = Ok PInf.
Proof. by_evaluation. Qed.

(** ** The simulator command line *)

(** C9 at the CI-correction objective: the literal that ends in the
    correction factor and the one that starts with [--start] are joined
    without a space, so that the factor is not a word of its own on the
    command line, while the multi objective separates them. *)
Theorem cmd_ci_correction_joins_start :
  cmd_ci_correction (VStr "SnzBerlinScenario25pct2020") 0 (decimal 1 2)
    (VStr "2020-03-10")
  = "java -Xmx5G -jar matsim-episim-1.0-SNAPSHOT.jar scenarioCreation trial SnzBerlinScenario25pct2020 --days 14 --number 0 --correction 0.500--start 2020-03-10"
  ∧ words (cmd_ci_correction (VStr "SnzBerlinScenario25pct2020") 0
             (decimal 1 2) (VStr "2020-03-10"))
    = ["java"; "-Xmx5G"; "-jar"; "matsim-episim-1.0-SNAPSHOT.jar";
       "scenarioCreation"; "trial"; "SnzBerlinScenario25pct2020";
       "--days"; "14"; "--number"; "0"; "--correction";
       "0.500--start"; "2020-03-10"]
  ∧ drop 9 (words (cmd_multi (VStr "SnzBerlinScenario25pct2020") 0
                     (decimal 3 2) (decimal 1 2)))
    = ["--number"; "0"; "--alpha"; "1.500"; "--correction"; "0.500";
       "--start"; dquote +:+ "2020-03-08" +:+ dquote]
  ∧ drop 6 (words (cmd_unconstrained (VStr "SnzBerlinScenario25pct2020") 0
                     (decimal 2 1000000)))
    = ["--number"; "0"; "--unconstrained"; "--calibParameter";
       "0.000002000000"].
Proof. split_and!; by_evaluation. Qed.

(** ** Objective functions and the exit status of the simulator *)

Lemma subprocess_run_status {A} (status : Z → Z) (ext : externals)
    (cmd : string) (k : M A) (s : state) :
  (subprocess_run (with_status status ext) cmd ≫= λ _, k) s
  = (subprocess_run ext cmd ≫= λ _, k) s.
Proof.
  unfold mbind, M_bind, subprocess_run. simpl.
  by destruct (simulate ext cmd (files s)).
Qed.

Lemma bind_ext {A B} (m : M A) (k1 k2 : A → M B) (s : state) :
  (∀ a s', k1 a s' = k2 a s') → (m ≫= k1) s = (m ≫= k2) s.
Proof.
  intros Hk. unfold mbind, M_bind. destruct (m s) as [[a|e] s']; auto.
Qed.

(** Both sides run the same steps up to the call of the simulator. *)
Ltac upto_subprocess status ext :=
  change (suggest_uniform (with_status status ext)) with (suggest_uniform ext);
  change (mean_squared_log_error (with_status status ext))
    with (mean_squared_log_error ext);
  repeat (apply bind_ext; intros ? ?);
  apply subprocess_run_status.

Lemma objective_unconstrained_status status ext t s :
  objective_unconstrained (with_status status ext) t s
  = objective_unconstrained ext t s.
Proof. unfold objective_unconstrained. upto_subprocess status ext. Qed.

Lemma objective_ci_correction_status status ext t s :
  objective_ci_correction (with_status status ext) t s
  = objective_ci_correction ext t s.
Proof. unfold objective_ci_correction. upto_subprocess status ext. Qed.

Lemma objective_multi_status status ext t s :
  objective_multi (with_status status ext) t s
  = objective_multi ext t s.
Proof. unfold objective_multi. upto_subprocess status ext. Qed.

(** C3, as the code has it: the three objective functions do not look at
    the exit status of the simulator; whatever the status, they go on to
    read the output file and end as the scoring of that file ends, with
    the same result and the same store. *)
Theorem objectives_ignore_exit_status (status : Z → Z) (ext : externals)
    (t : trial) (s : state) :
  objective_unconstrained (with_status status ext) t s
    = objective_unconstrained ext t s
  ∧ objective_ci_correction (with_status status ext) t s
    = objective_ci_correction ext t s
  ∧ objective_multi (with_status status ext) t s
    = objective_multi ext t s.
Proof.
  split_and!.
  - apply objective_unconstrained_status.
  - apply objective_ci_correction_status.
  - apply objective_multi_status.
Qed.

(** C3 fails as worded: the simulator ends with status 1, and the
    unconstrained objective reads the file and returns the score 0. *)
Lemma objective_unconstrained_after_failure :
  fst (objective_unconstrained (sample_externals 1)
         {| study_name := "unconstrained"; number := 0 |}
         (configured "unconstrained"))
  = Ok [of_Z 0].
Proof. by_evaluation. Qed.

(** ** Selection of the objective *)

Lemma select_objective_not_multi (mode : string) :
  mode ≠ "multi" → select_objective mode = objective_unconstrained.
Proof. intros Hne. unfold select_objective. by rewrite decide_False. Qed.

(** C1 at the mode [ci_correction]: the script selects the unconstrained
    objective, where the mode is specified to run the CI-correction
    objective; its one trial issues the unconstrained command and records
    the attribute of the unconstrained objective. *)
Theorem main_ci_correction_runs_unconstrained :
  select_objective "unconstrained" = objective_unconstrained
  ∧ select_objective "multi" = objective_multi
  ∧ select_objective "ci_correction" = objective_unconstrained
  ∧ specified_objective "ci_correction" = Some objective_ci_correction
  ∧ commands_of_run (sample_externals 0) (sample_arguments "ci_correction")
    = ["java -jar matsim-episim-1.0-SNAPSHOT.jar scenarioCreation trial SnzBerlinScenario25pct2020 --number 0 --unconstrained --calibParameter 0.000001000000"]
  ∧ commands
      (snd (objective_ci_correction (sample_externals 0)
              {| study_name := "ci_correction"; number := 0 |}
              (configured "ci_correction")))
    = ["java -Xmx5G -jar matsim-episim-1.0-SNAPSHOT.jar scenarioCreation trial SnzBerlinScenario25pct2020 --days 14 --number 0 --correction 0.200--start 2020-03-10"].
Proof.
  split_and!.
  - by apply select_objective_not_multi.
  - reflexivity.
  - by apply select_objective_not_multi.
  - reflexivity.
  - by_evaluation.
  - by_evaluation.
Qed.

(** * Further properties of the calibration script *)

(** ** [percentage_error] and [mean_absolute_percentage_error] *)

Section percentage_error_bounds.
Context (actual predicted : list float64).

Lemma percentage_error_loop_app js1 js2 res :
  percentage_error_loop actual predicted (js1 ++ js2) res =
    res' ← percentage_error_loop actual predicted js1 res;
    percentage_error_loop actual predicted js2 res'.
Proof.
  revert res. induction js1 as [|j js1 IH]; intros res; [done|].
  rewrite <- app_comm_cons, !percentage_error_loop_cons.
  destruct (getitem actual j) as [a|]; simpl; [|done].
  destruct (getitem predicted j) as [p|]; simpl; [|done].
  apply IH.
Qed.

Lemma percentage_error_loop_in_range js res :
  (∀ j, j ∈ js → j < length actual ∧ j < length predicted) →
  is_ok (percentage_error_loop actual predicted js res) = true.
Proof.
  revert res. induction js as [|j js IH]; intros res Hjs; [done|].
  rewrite percentage_error_loop_cons.
  destruct (Hjs j) as [Ha Hp]; [left|].
  destruct (lookup_lt_is_Some_2 actual j Ha) as [a Ea].
  destruct (lookup_lt_is_Some_2 predicted j Hp) as [p Ep].
  unfold getitem. rewrite Ea, Ep. simpl.
  apply IH. intros k Hk. apply Hjs. by right.
Qed.

Lemma percentage_error_short junk :
  length predicted < length actual →
  percentage_error junk actual predicted = Raise IndexError.
Proof.
  intros Hlen. unfold percentage_error.
  replace (length actual)
    with (length predicted + S (length actual - S (length predicted)))
    at 1 by lia.
  rewrite seq_app, percentage_error_loop_app. cbn [seq Nat.add].
  destruct (percentage_error_loop actual predicted (seq 0 (length predicted)) _)
    as [res'|e] eqn:Hrun.
  - cbn [mbind result_bind]. rewrite percentage_error_loop_cons.
    destruct (lookup_lt_is_Some_2 actual (length predicted) Hlen) as [a Ea].
    unfold getitem. rewrite Ea. simpl.
    by rewrite (lookup_ge_None_2 predicted (length predicted)) by lia.
  - pose proof (percentage_error_loop_in_range (seq 0 (length predicted))
                  (np_empty (length actual) junk)) as Hok.
    rewrite Hrun in Hok. discriminate Hok.
    intros j Hj. apply elem_of_seq in Hj. lia.
Qed.
End percentage_error_bounds.

(** X1: when [predicted] is shorter than [actual], [percentage_error]
    raises [IndexError]: the loop runs over the indices of [actual] and
    reads [predicted] past its end. *)
Theorem percentage_error_index_error (junk : float64)
    (actual predicted : list float64) :
  length predicted < length actual →
  percentage_error junk actual predicted = Raise IndexError.
Proof. apply percentage_error_short. Qed.

Lemma percentage_error_index_error_witness :
  percentage_error NaN [of_Z 10; of_Z 100] [of_Z 12] = Raise IndexError.
Proof.
  apply (percentage_error_index_error NaN [of_Z 10; of_Z 100] [of_Z 12]).
  simpl. lia.
Defined.

(** X2: the result of [percentage_error] never shows what [np.empty] found
    in memory: it is the same for any two initial contents of the array. *)
Theorem percentage_error_initialised (junk1 junk2 : float64)
    (actual predicted : list float64) :
  percentage_error junk1 actual predicted
  = percentage_error junk2 actual predicted.
Proof.
  destruct (decide (length actual ≤ length predicted)) as [Hle|Hgt].
  - destruct (percentage_error_loop_entries actual predicted junk1 Hle)
      as (res1 & -> & Hl1 & H1).
    destruct (percentage_error_loop_entries actual predicted junk2 Hle)
      as (res2 & -> & Hl2 & H2).
    f_equal. apply list_eq. intros i.
    destruct (decide (i < length actual)) as [Hi|Hi].
    + destruct (lookup_lt_is_Some_2 actual i Hi) as [a Ha].
      destruct (lookup_lt_is_Some_2 predicted i ltac:(lia)) as [p Hp].
      by rewrite (H1 i a p Ha Hp), (H2 i a p Ha Hp).
    + by rewrite !lookup_ge_None_2 by lia.
  - by rewrite !percentage_error_short by lia.
Qed.

Lemma fsum_zeros (n : nat) : fsum (replicate n (Fin 0%Qc)) = Fin 0%Qc.
Proof.
  induction n as [|n IH]; [done|].
  change (fsum (replicate (S n) (Fin 0%Qc)))
    with (fadd (Fin 0%Qc) (fsum (replicate n (Fin 0%Qc)))).
  rewrite IH. simpl. f_equal; ring.
Qed.

Lemma fsum_finite (l : list float64) :
  Forall (λ x, is_finite x = true) l → ∃ s, fsum l = Fin s.
Proof.
  induction 1 as [|x l Hx _ [s IH]]; [by eexists|].
  destruct x as [q| | |]; try discriminate Hx.
  change (fsum (Fin q :: l)) with (fadd (Fin q) (fsum l)).
  rewrite IH. by eexists.
Qed.

Lemma of_Z_nat_compare (n : nat) :
  0 < n → (Q2Qc (inject_Z (Z.of_nat n)) ?= 0)%Qc = Gt.
Proof.
  intros Hn. apply Qcgt_alt. unfold Qclt. cbn [this Q2Qc].
  assert (H : (0 < inject_Z (Z.of_nat n))%Q) by (unfold Qlt; simpl; lia).
  rewrite <- (Qred_correct (inject_Z (Z.of_nat n))) in H. exact H.
Qed.

Lemma fdiv_zero_by (d : Qc) : d ≠ 0%Qc → fdiv (Fin 0%Qc) (Fin d) = Fin 0%Qc.
Proof.
  intros Hd. simpl. destruct (d ?= 0)%Qc eqn:E.
  - by apply Qceq_alt in E.
  - f_equal; unfold Qcdiv; ring.
  - f_equal; unfold Qcdiv; ring.
Qed.

Lemma fge_abs_nonzero (q : Qc) :
  fge (fabs (Fin q)) (of_Z 15) = true → q ≠ 0%Qc.
Proof. intros Hge ->. discriminate Hge. Qed.

Lemma np_mean_zeros (n : nat) :
  0 < n → np_mean (replicate n (Fin 0%Qc)) = Fin 0%Qc.
Proof.
  intros Hn. unfold np_mean, of_Z. rewrite fsum_zeros, length_replicate.
  apply fdiv_zero_by. intros Heq.
  pose proof (of_Z_nat_compare n Hn) as Hcmp. rewrite Heq in Hcmp.
  discriminate Hcmp.
Qed.

(** X3: a perfect prediction has no error: for a non-empty array [y] of
    finite values whose mean is not zero,
    [mean_absolute_percentage_error(y, y)] is 0. *)
Theorem mean_absolute_percentage_error_same (junk : float64)
    (y : list float64) :
  0 < length y →
  Forall (λ x, is_finite x = true) y →
  np_mean y ≠ Fin 0%Qc →
  mean_absolute_percentage_error junk y y = Ok (Fin 0%Qc).
Proof.
  intros Hlen Hfin Hmean. unfold mean_absolute_percentage_error.
  destruct (percentage_error_loop_entries y y junk) as (res & -> & Hl & Hres);
    [lia|].
  assert (Hres0 : res = replicate (length y) (Fin 0%Qc)).
  { apply list_eq. intros i.
    destruct (decide (i < length y)) as [Hi|Hi].
    - destruct (lookup_lt_is_Some_2 y i Hi) as [a Ha].
      rewrite (Hres i a a Ha Ha), lookup_replicate_2 by done. f_equal.
      assert (Ha' : is_finite a = true)
        by exact (proj1 (Forall_lookup _ _) Hfin i a Ha).
      destruct a as [q| | |]; try discriminate Ha'.
      unfold percentage_error_entry.
      replace (fsub (Fin q) (Fin q)) with (Fin 0%Qc)
        by (simpl; f_equal; ring).
      destruct (fge (fabs (Fin q)) (of_Z 15)) eqn:Hge.
      + apply fdiv_zero_by. by apply fge_abs_nonzero.
      + destruct (fsum_finite y Hfin) as [s Hs].
        unfold np_mean, of_Z in *. rewrite Hs in *.
        simpl in *. rewrite of_Z_nat_compare in * by done.
        apply fdiv_zero_by. intros Heq. by rewrite Heq in Hmean.
    - rewrite !lookup_ge_None_2; [done|rewrite length_replicate; lia|lia]. }
  subst res. simpl.
  rewrite map_fmap, fmap_replicate.
  change (fabs (Fin 0%Qc)) with (Fin (Qcabs 0%Qc)).
  rewrite (Qcabs_pos 0%Qc) by done.
  rewrite np_mean_zeros by done. simpl. do 2 f_equal; ring.
Qed.

Lemma mean_absolute_percentage_error_same_witness :
  mean_absolute_percentage_error NaN [of_Z 10; of_Z 100] [of_Z 10; of_Z 100]
  = Ok (Fin 0%Qc).
Proof.
  apply (mean_absolute_percentage_error_same NaN [of_Z 10; of_Z 100]).
  - simpl. lia.
  - by repeat constructor.
  - discriminate.
Defined.

(** ** The derived columns of [read_data] *)

Lemma length_diff_from prev (l : list Qc) : length (diff_from prev l) = length l.
Proof. revert prev. induction l as [|x l IH]; intros prev; simpl; [done|]. by rewrite IH. Qed.

Lemma length_diff1 (l : list Qc) : length (diff1 l) = length l.
Proof. destruct l; simpl; [done|]. by rewrite length_diff_from. Qed.

Lemma length_rolling_mean window (l : list (option Qc)) :
  length (rolling_mean window l) = length l.
Proof. unfold rolling_mean. by rewrite length_map, length_seq. Qed.

Lemma length_normalize (l : list (option Qc)) : length (normalize l) = length l.
Proof. unfold normalize. by rewrite length_map. Qed.

Lemma zip4_map {A B C D E F} (f : A → B → C → D → E) (g : E → F)
    (h : A → B → C → D → F)
    (a : list A) (b : list B) (c : list C) (d : list D) :
  (∀ x y z w, g (f x y z w) = h x y z w) →
  map g (zip4 f a b c d) = zip4 h a b c d.
Proof.
  intros Hg. revert b c d.
  induction a as [|x0 a IH]; intros [|y0 b] [|z0 c] [|w0 d]; simpl; try done.
  by rewrite Hg, IH.
Qed.

Lemma zip4_proj1 {A B C D} (a : list A) (b : list B) (c : list C) (d : list D) :
  length b = length a → length c = length a → length d = length a →
  zip4 (λ x _ _ _, x) a b c d = a.
Proof.
  revert b c d. induction a as [|x0 a IH]; intros [|y0 b] [|z0 c] [|w0 d];
    simpl; intros Hb Hc Hd; try done.
  f_equal. apply IH; auto.
Qed.

Lemma diff_from_cumsum_from (acc : Qc) (l : list Qc) :
  diff_from acc (cumsum_from acc l) = map Some l.
Proof.
  revert acc. induction l as [|x l IH]; intros acc; simpl; [done|].
  rewrite IH. do 2 f_equal; ring.
Qed.

(** X5: [diff(1)] undoes [cumsum()] but for the first row: the first
    difference of the cumulative reported cases is the daily cases again,
    with the first day missing. *)
Theorem diff1_cumsum (x : Qc) (l : list Qc) :
  diff1 (cumsum (x :: l)) = None :: map Some l.
Proof.
  unfold cumsum. simpl. by rewrite diff_from_cumsum_from.
Qed.

Lemma length_valid (l : list (option Qc)) : length (valid l) ≤ length l.
Proof.
  induction l as [|[x|] l IH]; [done| |].
  - change (valid (Some x :: l)) with (x :: valid l). simpl. lia.
  - change (valid (None :: l)) with (valid l). simpl. lia.
Qed.

Lemma rolling_mean_lookup window (l : list (option Qc)) (i : nat) :
  i < length l →
  rolling_mean window l !! i = Some (window_mean window (trailing window l i)).
Proof.
  intros Hi. unfold rolling_mean.
  rewrite lookup_map, lookup_seq_lt by done. done.
Qed.

Lemma window_mean_short window (w : list (option Qc)) :
  length (valid w) < window → window_mean window w = None.
Proof.
  intros Hlt. unfold window_mean.
  by destruct (Nat.leb_spec window (length (valid w))); [lia|].
Qed.

Lemma rolling_mean_partial window (l : list (option Qc)) (i : nat) :
  i < length l → S i < window → rolling_mean window l !! i = Some None.
Proof.
  intros Hi Hw. rewrite rolling_mean_lookup by done. f_equal.
  apply window_mean_short.
  pose proof (length_valid (trailing window l i)) as Hv.
  unfold trailing in *. rewrite length_drop, length_take in Hv. lia.
Qed.

Lemma rolling_mean_after_missing window (l : list (option Qc)) (i : nat) :
  i < S (length l) → i < window →
  rolling_mean window (None :: l) !! i = Some None.
Proof.
  intros Hi Hw. rewrite rolling_mean_lookup by (simpl; lia). f_equal.
  apply window_mean_short. unfold trailing.
  replace (S i - window) with 0 by lia. simpl.
  change (valid (None :: take i l)) with (valid (take i l)).
  pose proof (length_valid (take i l)) as Hv.
  rewrite length_take in Hv. lia.
Qed.

Lemma casesSmoothed_short window (l : list Qc) (i : nat) :
  i < length l → S i < window → rki_casesSmoothed window l !! i = Some None.
Proof.
  intros Hi Hw. unfold rki_casesSmoothed.
  apply rolling_mean_partial; [by rewrite length_map|done].
Qed.

(** X6: the smoothed columns start with missing rows: on the reported side
    the first [window - 1] rows, and on the simulation side, where the
    first difference has no first row, the first [window] rows. *)
Theorem casesSmoothed_leading_rows (window : nat) (l : list Qc) (i : nat) :
  i < length l →
  (S i < window → rki_casesSmoothed window l !! i = Some None)
  ∧ (i < window → sim_casesSmoothed window l !! i = Some None).
Proof.
  intros Hi. split; intros Hw.
  - unfold rki_casesSmoothed.
    apply rolling_mean_partial; [by rewrite length_map|done].
  - unfold sim_casesSmoothed, sim_cases.
    destruct l as [|x l]; [simpl in Hi; lia|]. simpl diff1.
    apply rolling_mean_after_missing; [|done].
    rewrite length_diff_from. simpl in Hi. lia.
Qed.

Lemma casesSmoothed_leading_rows_witness :
  rki_casesSmoothed 5 (map (λ z, decimal z 1) [1; 2; 3; 4; 5; 6]%Z) !! 3
    = Some None
  ∧ sim_casesSmoothed 5 (map (λ z, decimal z 1) [1; 2; 3; 4; 5; 6]%Z) !! 4
    = Some None.
Proof.
  destruct (casesSmoothed_leading_rows 5
              (map (λ z, decimal z 1) [1; 2; 3; 4; 5; 6]%Z) 3) as [Hr _];
    [simpl; lia|].
  destruct (casesSmoothed_leading_rows 5
              (map (λ z, decimal z 1) [1; 2; 3; 4; 5; 6]%Z) 4) as [_ Hs];
    [simpl; lia|].
  split; [apply Hr; lia|apply Hs; lia].
Defined.

Lemma normalize_missing (n : nat) :
  normalize (replicate n None) = replicate n NaN.
Proof.
  unfold normalize. rewrite map_fmap, fmap_replicate. done.
Qed.

(** X8: a series too short for one full window has no smoothed value, and
    its normalized series is missing (NaN) in every row: a reported series
    of fewer than [window] days, a simulated one of at most [window]. *)
Theorem casesNorm_short_series (window : nat) (l : list Qc) :
  (length l < window →
     rki_casesNorm window l = replicate (length l) NaN)
  ∧ (length l ≤ window →
     sim_casesNorm window l = replicate (length l) NaN).
Proof.
  split; intros Hlen.
  - unfold rki_casesNorm.
    replace (rki_casesSmoothed window l) with (replicate (length l) (@None Qc));
      [apply normalize_missing|].
    apply list_eq. intros i.
    destruct (decide (i < length l)) as [Hi|Hi].
    + rewrite lookup_replicate_2 by done. symmetry.
      apply casesSmoothed_short; [done|lia].
    + rewrite !lookup_ge_None_2; [done| |rewrite length_replicate; lia].
      unfold rki_casesSmoothed. rewrite length_rolling_mean, length_map. lia.
  - unfold sim_casesNorm.
    replace (sim_casesSmoothed window l) with (replicate (length l) (@None Qc));
      [apply normalize_missing|].
    apply list_eq. intros i.
    destruct (decide (i < length l)) as [Hi|Hi].
    + rewrite lookup_replicate_2 by done. symmetry.
      unfold sim_casesSmoothed, sim_cases.
      destruct l as [|x l]; [simpl in Hi; lia|]. simpl diff1.
      apply rolling_mean_after_missing;
        rewrite ?length_diff_from; simpl in *; lia.
    + rewrite !lookup_ge_None_2; [done| |rewrite length_replicate; lia].
      unfold sim_casesSmoothed, sim_cases.
      rewrite length_rolling_mean, length_diff1. lia.
Qed.

Lemma casesNorm_short_series_witness :
  rki_casesNorm 5 (map (λ z, decimal z 1) [4; 8; 15]%Z) = replicate 3 NaN
  ∧ sim_casesNorm 3 (map (λ z, decimal z 1) [4; 8; 15]%Z) = replicate 3 NaN.
Proof.
  destruct (casesNorm_short_series 5 (map (λ z, decimal z 1) [4; 8; 15]%Z))
    as [Hr _].
  destruct (casesNorm_short_series 3 (map (λ z, decimal z 1) [4; 8; 15]%Z))
    as [_ Hs].
  split; [apply Hr; simpl; lia|apply Hs; simpl; lia].
Defined.

Lemma valid_no_case (l : list (option Qc)) :
  Forall no_case l → valid l = replicate (length (valid l)) 0%Qc.
Proof.
  induction 1 as [|x l [->| ->] _ IH].
  - done.
  - by change (valid (None :: l)) with (valid l).
  - change (valid (Some 0%Qc :: l)) with (0%Qc :: valid l).
    simpl. by rewrite <- IH.
Qed.

Lemma obs_mean_no_case (l : list (option Qc)) :
  Forall no_case l → no_case (obs_mean (valid l)).
Proof.
  intros Hl. rewrite (valid_no_case l Hl).
  destruct (length (valid l)) as [|n]; [by left|].
  right. apply obs_mean_replicate. lia.
Qed.

Lemma window_mean_no_case window (w : list (option Qc)) :
  Forall no_case w → no_case (window_mean window w).
Proof.
  intros Hw. unfold window_mean.
  destruct (window <=? length (valid w))%nat; [|by left].
  by apply obs_mean_no_case.
Qed.

Lemma rolling_mean_no_case window (l : list (option Qc)) :
  Forall no_case l → Forall no_case (rolling_mean window l).
Proof.
  intros Hl. unfold rolling_mean. apply Forall_forall. intros x Hx.
  apply list_elem_of_In, in_map_iff in Hx as (i & <- & _).
  apply window_mean_no_case. unfold trailing.
  by apply Forall_drop, Forall_take.
Qed.

Lemma normalize_no_case (smoothed : list (option Qc)) :
  Forall no_case smoothed →
  normalize smoothed = replicate (length smoothed) NaN.
Proof.
  intros Hs. unfold normalize.
  pose proof (obs_mean_no_case smoothed Hs) as Hm.
  fold (series_mean smoothed) in Hm.
  generalize dependent (series_mean smoothed). intros m Hm.
  induction Hs as [|x l Hx _ IH]; [done|].
  simpl. f_equal; [|exact IH].
  destruct Hx as [-> | ->]; [done|].
  by destruct Hm as [-> | ->].
Qed.

Lemma diff_from_constant (c : Qc) (n : nat) :
  Forall no_case (diff_from c (replicate n c)).
Proof.
  induction n as [|n IH]; simpl; [done|].
  constructor; [|done]. right. f_equal; ring.
Qed.

(** X9: without a single case the normalized series is missing (NaN) in
    every row: on the simulation side when the cumulative count stays
    constant, on the reported side when every daily count is zero; the
    mean that divides is zero or itself missing. *)
Theorem casesNorm_without_cases (window n : nat) (c : Qc) :
  sim_casesNorm window (replicate n c) = replicate n NaN
  ∧ rki_casesNorm window (replicate n 0%Qc) = replicate n NaN.
Proof.
  split.
  - unfold sim_casesNorm, sim_casesSmoothed, sim_cases.
    rewrite normalize_no_case.
    + by rewrite length_rolling_mean, length_diff1, length_replicate.
    + apply rolling_mean_no_case. destruct n as [|n]; simpl; [done|].
      constructor; [by left|]. apply diff_from_constant.
  - unfold rki_casesNorm, rki_casesSmoothed.
    rewrite normalize_no_case.
    + by rewrite length_rolling_mean, length_map, length_replicate.
    + apply rolling_mean_no_case. rewrite map_fmap, fmap_replicate.
      apply Forall_replicate. by right.
Qed.

(** ** [infection_rate] *)

Lemma by_district_scale (k : Qc) (d : argval) (rows : list sim_row) :
  by_district d (scale_infected k rows) = scale_infected k (by_district d rows).
Proof.
  unfold by_district, scale_infected.
  induction rows as [|r rows IH]; [done|].
  cbn [map]. rewrite !filter_cons. cbn [district].
  destruct (decide (VStr (district r) = d)); cbn [map]; by rewrite IH.
Qed.

Lemma nTotalInfected_at_scale_rows (k : Qc) (df : list sim_row) (i : Z) :
  nTotalInfected_at (scale_infected k df) i = scale k (nTotalInfected_at df i).
Proof.
  unfold nTotalInfected_at, scale_infected, scale.
  induction df as [|r df IH]; [done|].
  cbn [map]. rewrite !filter_cons. cbn [day].
  destruct (decide (day r = i)); cbn [map nTotalInfected]; by rewrite IH.
Qed.

Lemma nTotalInfected_at_scale (k : Qc) (d : argval) (rows : list sim_row)
    (i : Z) :
  nTotalInfected_at (by_district d (scale_infected k rows)) i
  = scale k (nTotalInfected_at (by_district d rows) i).
Proof. by rewrite by_district_scale, nTotalInfected_at_scale_rows. Qed.

Lemma infection_rate_loop_scale (k : Qc) (df df' : list sim_row)
    (interval : Z) (days : list Z) (rates : list Qc) :
  k ≠ 0%Qc →
  (∀ i, nTotalInfected_at df' i = scale k (nTotalInfected_at df i)) →
  infection_rate_loop df' interval days rates
  = infection_rate_loop df interval days rates.
Proof.
  intros Hk Hrows. revert rates.
  induction days as [|i days IH]; intros rates; [done|].
  simpl. rewrite !Hrows.
  destruct (nTotalInfected_at df (i - interval)) as [|prev [|]]; [done| |done].
  destruct (nTotalInfected_at df i) as [|today [|]]; [done| |done].
  simpl. unfold py_truediv.
  destruct (decide (prev = 0%Qc)) as [->|Hprev].
  - rewrite decide_True by ring. done.
  - rewrite decide_False.
    + simpl. replace (k * today / (k * prev))%Qc with (today / prev)%Qc
        by (by field). apply IH.
    + intros Hz. apply Qcmult_integral in Hz as [|]; done.
Qed.

(** X10: [infection_rate] depends on the ratios of the counts only: with
    every [nTotalInfected] count of the file multiplied by a constant
    [k] other than zero (a simulation of a sample of the population), it
    returns the same result or fails in the same way. *)
Theorem infection_rate_scale (k : Qc) (fs fs' : filesystem) (f : string)
    (d : argval) (rows : list sim_row) :
  k ≠ 0%Qc →
  fs !! f = Some (SimFile rows) →
  fs' !! f = Some (SimFile (scale_infected k rows)) →
  infection_rate fs' f d = infection_rate fs f d.
Proof.
  intros Hk Hfs Hfs'.
  rewrite (infection_rate_read _ _ _ _ Hfs), (infection_rate_read _ _ _ _ Hfs').
  rewrite (infection_rate_loop_scale k (by_district d rows)); [done..|].
  intros i. apply nTotalInfected_at_scale.
Qed.

Lemma infection_rate_scale_witness :
  infection_rate
    {[ "infections.txt" := SimFile (scale_infected (decimal 1 4) doubling_file) ]}
    "infections.txt" (VStr "Berlin")
  = infection_rate {[ "infections.txt" := SimFile doubling_file ]}
      "infections.txt" (VStr "Berlin").
Proof.
  apply (infection_rate_scale (decimal 1 4) _ _ _ _ doubling_file).
  - discriminate.
  - reflexivity.
  - reflexivity.
Defined.

Lemma float_of_series_one {A} (s : list A) :
  length s ≠ 1 → float_of_series s = Raise TypeError.
Proof. by destruct s as [|x [|]]. Qed.

Lemma infection_rate_loop_rows (df : list sim_row) (interval : Z)
    (days : list Z) (rates : list Qc) (i : Z) :
  i ∈ days →
  length (nTotalInfected_at df (i - interval)) ≠ 1
  ∨ length (nTotalInfected_at df i) ≠ 1 →
  is_ok (infection_rate_loop df interval days rates) = false.
Proof.
  revert rates. induction days as [|i' days IH]; intros rates Hi Hrows.
  { by apply elem_of_nil in Hi. }
  simpl.
  destruct (float_of_series (nTotalInfected_at df (i' - interval)))
    as [prev|] eqn:Eprev; simpl; [|done].
  destruct (float_of_series (nTotalInfected_at df i'))
    as [today|] eqn:Etoday; simpl; [|done].
  destruct (py_truediv today prev) as [r|]; simpl; [|done].
  apply elem_of_cons in Hi as [->|Hi]; [|by apply IH].
  destruct Hrows as [Hr|Hr]; apply float_of_series_one in Hr; congruence.
Qed.

(** X11: [infection_rate] needs exactly one row of the district for each
    of the days 22 to 39: it fails when one of these days has no row or
    more than one. *)
Theorem infection_rate_one_row_per_day (fs : filesystem) (f : string)
    (d : argval) (rows : list sim_row) (j : Z) :
  fs !! f = Some (SimFile rows) →
  (22 ≤ j < 40)%Z →
  length (nTotalInfected_at (by_district d rows) j) ≠ 1 →
  is_ok (infection_rate fs f d) = false.
Proof.
  intros Hfile Hj Hrows. rewrite (infection_rate_read _ _ _ _ Hfile).
  assert (Hloop : is_ok (infection_rate_loop (by_district d rows) 3
                           (range 25 40) []) = false).
  { destruct (decide (j < 25)%Z) as [Hlt|Hge].
    - apply (infection_rate_loop_rows _ _ _ _ (j + 3));
        [apply elem_of_range; lia|].
      left. by replace (j + 3 - 3)%Z with j by lia.
    - apply (infection_rate_loop_rows _ _ _ _ j);
        [apply elem_of_range; lia|by right]. }
  by destruct (infection_rate_loop _ _ _ _).
Qed.

Lemma infection_rate_one_row_per_day_witness :
  is_ok (infection_rate
           {[ "infections.txt" := SimFile (doubling_file ++ [doubling_row 30]) ]}
           "infections.txt" (VStr "Berlin")) = false.
Proof.
  apply (infection_rate_one_row_per_day _ _ _
           (doubling_file ++ [doubling_row 30]) 30).
  - reflexivity.
  - lia.
  - vm_compute. lia.
Defined.

(** X12: [infection_rate] raises [FileNotFoundError] when the output file
    does not exist, and [TypeError] when the file has no row of the
    district. *)
Theorem infection_rate_no_data (fs : filesystem) (f : string) (d : argval) :
  (fs !! f = None → infection_rate fs f d = Raise FileNotFoundError)
  ∧ (∀ rows, fs !! f = Some (SimFile rows) → by_district d rows = [] →
       infection_rate fs f d = Raise TypeError).
Proof.
  split.
  - intros Hfile. unfold infection_rate, infection_rate_of, read_sim.
    by rewrite Hfile.
  - intros rows Hfile Hnone. rewrite (infection_rate_read _ _ _ _ Hfile).
    rewrite Hnone. reflexivity.
Qed.

Lemma infection_rate_no_data_witness :
  infection_rate {[ "infections.txt" := SimFile doubling_file ]}
    "infections.txt" (VStr "unknown") = Raise TypeError.
Proof.
  apply (proj2 (infection_rate_no_data _ _ _) doubling_file); reflexivity.
Defined.

Lemma infection_rate_loop_zero (df : list sim_row) (interval : Z)
    (days : list Z) (rates : list Qc) :
  (∀ i, i ∈ days → ∃ prev today,
      nTotalInfected_at df (i - interval) = [prev]
      ∧ nTotalInfected_at df i = [today]) →
  (∃ i, i ∈ days ∧ nTotalInfected_at df (i - interval) = [0%Qc]) →
  infection_rate_loop df interval days rates = Raise ZeroDivisionError.
Proof.
  revert rates. induction days as [|i days IH]; intros rates Hrows Hzero.
  { destruct Hzero as (j & Hj & _). by apply elem_of_nil in Hj. }
  destruct (Hrows i) as (prev & today & Hprev & Htoday); [left|].
  simpl. rewrite Hprev, Htoday. simpl. unfold py_truediv.
  destruct (decide (prev = 0%Qc)) as [->|Hnz]; [done|].
  simpl. apply IH.
  - intros j Hj. apply Hrows. by right.
  - destruct Hzero as (j & Hj & Hz).
    apply elem_of_cons in Hj as [->|Hj]; [|by exists j].
    rewrite Hprev in Hz. by simplify_eq.
Qed.

(** X13: when each of the days 22 to 39 has one row of the district and
    the count of one of the days 22 to 36 is zero, [infection_rate]
    raises [ZeroDivisionError]: the count divides the one three days
    later. *)
Theorem infection_rate_zero_count (fs : filesystem) (f : string)
    (d : argval) (rows : list sim_row) (j : Z) :
  fs !! f = Some (SimFile rows) →
  (∀ i, (22 ≤ i < 40)%Z →
     ∃ v, nTotalInfected_at (by_district d rows) i = [v]) →
  (22 ≤ j < 37)%Z →
  nTotalInfected_at (by_district d rows) j = [0%Qc] →
  infection_rate fs f d = Raise ZeroDivisionError.
Proof.
  intros Hfile Hrows Hj Hzero. rewrite (infection_rate_read _ _ _ _ Hfile).
  rewrite (infection_rate_loop_zero _ _ (range 25 40) []); [done| |].
  - intros i Hi. apply range_bounds in Hi.
    destruct (Hrows (i - 3)%Z) as [prev Hprev]; [lia|].
    destruct (Hrows i) as [today Htoday]; [lia|].
    by exists prev, today.
  - exists (j + 3)%Z. split; [apply elem_of_range; lia|].
    by replace (j + 3 - 3)%Z with j by lia.
Qed.

Lemma infection_rate_zero_count_witness :
  infection_rate
    {[ "infections.txt" := SimFile (scale_infected 0%Qc doubling_file) ]}
    "infections.txt" (VStr "Berlin") = Raise ZeroDivisionError.
Proof.
  apply (infection_rate_zero_count _ _ _
           (scale_infected 0%Qc doubling_file) 22).
  - reflexivity.
  - intros i Hi.
    assert (Hcases : i ∈ range 22 40) by by apply elem_of_range.
    vm_compute in Hcases.
    repeat (apply elem_of_cons in Hcases as [->|Hcases];
            [eexists; reflexivity|]).
    by apply elem_of_nil in Hcases.
  - lia.
  - reflexivity.
Defined.

(** ** The dark figure and the peak of [calc_multi_error] *)

(** X14: when the simulated and the reported table of the comparison
    window end on different dates, the dark figure line raises
    [TypeError]: the division aligns the two last rows on their dates and
    yields two rows, which [float] refuses. *)
Theorem dunkelziffer_unaligned (df : list sim_frame_row)
    (rki : list rki_frame_row) (a : sim_frame_row) (b : rki_frame_row) :
  last df = Some a → last rki = Some b →
  date (srow a) ≠ rki_date (rrow b) →
  dunkelziffer df rki = Raise TypeError.
Proof.
  intros Ha Hb Hne. rewrite (dunkelziffer_last _ _ _ _ Ha Hb).
  by rewrite series_truediv_apart.
Qed.

Lemma dunkelziffer_unaligned_witness :
  dunkelziffer (sim_frame 5 one_day_sim)
    (rki_frame 5 [{| rki_date := "2020-03-11"; rki_cases := decimal 2 1 |}])
  = Raise TypeError.
Proof.
  eapply (dunkelziffer_unaligned (sim_frame 5 one_day_sim)
            (rki_frame 5
               [{| rki_date := "2020-03-11"; rki_cases := decimal 2 1 |}])).
  - reflexivity.
  - reflexivity.
  - discriminate.
Defined.

(** X15: when the comparison window holds no row of either table, the dark
    figure line raises [TypeError]; when it holds rows of one table only,
    it raises nothing and the dark figure is NaN. *)
Theorem dunkelziffer_empty (df : list sim_frame_row)
    (rki : list rki_frame_row) :
  dunkelziffer [] [] = Raise TypeError
  ∧ (df ≠ [] → dunkelziffer df [] = Ok NaN)
  ∧ (rki ≠ [] → dunkelziffer [] rki = Ok NaN).
Proof.
  split_and!; [done| |].
  - intros Hdf. destruct (last df) as [a|] eqn:Ha.
    + unfold dunkelziffer. rewrite (tail1_last _ _ (last_map _ _ _ Ha)).
      done.
    + by apply last_None in Ha.
  - intros Hrki. destruct (last rki) as [b|] eqn:Hb.
    + unfold dunkelziffer. rewrite (tail1_last _ _ (last_map _ _ _ Hb)).
      done.
    + by apply last_None in Hb.
Qed.

Lemma dunkelziffer_empty_witness :
  dunkelziffer (sim_frame 5 one_day_sim) [] = Ok NaN.
Proof.
  apply (dunkelziffer_empty (sim_frame 5 one_day_sim) []). discriminate.
Defined.

Lemma idxmax_from_spec (l : list (string * option Qc)) (b : string) (bx : Qc) :
  (idxmax_from (b, bx) l = b ∧ Forall (at_most bx) l)
  ∨ (∃ x, (bx < x)%Qc ∧ first_largest l (idxmax_from (b, bx) l) x).
Proof.
  revert b bx. induction l as [|[i [x|]] l IH]; intros b bx.
  - left. by split.
  - simpl. destruct (x ?= bx)%Qc eqn:E.
    + apply Qceq_alt in E. subst x.
      pose proof (IH b bx) as Hspec. revert Hspec.
      generalize (idxmax_from (b, bx) l).
      intros d [[-> Hl]|(x' & Hlt & l1 & l2 & Hl & H1 & H2)].
      * left. split; [done|]. constructor; [|done].
        intros y Hy; simpl in Hy; simplify_eq. apply Qcle_refl.
      * right. exists x'. split; [done|].
        exists ((i, Some bx) :: l1), l2. split_and!; [by rewrite Hl| |done].
        constructor; [|done]. by intros y Hy; simpl in Hy; simplify_eq.
    + apply Qclt_alt in E.
      pose proof (IH b bx) as Hspec. revert Hspec.
      generalize (idxmax_from (b, bx) l).
      intros d [[-> Hl]|(x' & Hlt & l1 & l2 & Hl & H1 & H2)].
      * left. split; [done|]. constructor; [|done].
        intros y Hy; simpl in Hy; simplify_eq. by apply Qclt_le_weak.
      * right. exists x'. split; [done|].
        exists ((i, Some x) :: l1), l2. split_and!; [by rewrite Hl| |done].
        constructor; [|done]. intros y Hy; simpl in Hy; simplify_eq. by eapply Qclt_trans.
    + apply Qcgt_alt in E. right.
      pose proof (IH i x) as Hspec. revert Hspec.
      generalize (idxmax_from (i, x) l).
      intros d [[-> Hl]|(x' & Hlt & l1 & l2 & Hl & H1 & H2)].
      * exists x. split; [done|]. by exists [], l.
      * exists x'. split; [by eapply Qclt_trans|].
        exists ((i, Some x) :: l1), l2. split_and!; [by rewrite Hl| |done].
        constructor; [|done]. by intros y Hy; simpl in Hy; simplify_eq.
  - simpl.
    pose proof (IH b bx) as Hspec. revert Hspec.
      generalize (idxmax_from (b, bx) l).
      intros d [[-> Hl]|(x' & Hlt & l1 & l2 & Hl & H1 & H2)].
    + left. split; [done|]. constructor; [|done]. by intros y Hy; simpl in Hy; simplify_eq.
    + right. exists x'. split; [done|].
      exists ((i, None) :: l1), l2. split_and!; [by rewrite Hl| |done].
      constructor; [|done]. by intros y Hy; simpl in Hy; simplify_eq.
Qed.

(** X16: the peak that [calc_multi_error] takes with [idxmax] is the date
    of a row with a valid case count that no row exceeds and no earlier
    row reaches; there is no peak, and the computation fails, exactly when
    no row of the window has a valid case count. *)
Theorem idxmax_first_largest (l : list (string * option Qc)) :
  (∀ d, idxmax l = Ok d → ∃ x, first_largest l d x)
  ∧ (is_ok (idxmax l) = false ↔ Forall (λ r, r.2 = None) l).
Proof.
  induction l as [|[i [x|]] l (IH1 & IH2)].
  - split; [done|]. by split.
  - split.
    + intros d [= <-].
      pose proof (idxmax_from_spec l i x) as Hspec. revert Hspec.
      generalize (idxmax_from (i, x) l).
      intros d [[-> Hl]|(x' & Hlt & l1 & l2 & Hl & H1 & H2)].
      * exists x. by exists [], l.
      * exists x'. exists ((i, Some x) :: l1), l2.
        split_and!; [by rewrite Hl| |done].
        constructor; [|done]. by intros y Hy; simpl in Hy; simplify_eq.
    + split; [done|]. intros Hall. by apply Forall_cons in Hall as [[=] _].
  - split.
    + intros d Hd. destruct (IH1 d Hd) as (x & l1 & l2 & Hl & H1 & H2).
      exists x, ((i, None) :: l1), l2. split_and!; [by rewrite Hl| |done].
      constructor; [|done]. by intros y Hy; simpl in Hy; simplify_eq.
    + simpl. rewrite IH2. split; [by constructor|].
      by intros [_ ?]%Forall_cons.
Qed.

Lemma sim_frame_rows (window : nat) (df : list sim_row) :
  map srow (sim_frame window df) = df.
Proof.
  unfold sim_frame. cbv zeta.
  rewrite (zip4_map _ _ (λ x _ _ _, x)) by done. apply zip4_proj1.
  - unfold sim_cases. by rewrite length_diff1, length_map.
  - unfold sim_casesSmoothed, sim_cases.
    by rewrite length_rolling_mean, length_diff1, length_map.
  - unfold sim_casesNorm, sim_casesSmoothed, sim_cases.
    by rewrite length_normalize, length_rolling_mean, length_diff1, length_map.
Qed.

Lemma filter_none {A} (P : A → Prop) `{∀ x, Decision (P x)} (l : list A) :
  Forall (λ x, ¬ P x) l → filter P l = [].
Proof.
  induction 1 as [|x l Hx _ IH]; [done|]. by rewrite filter_cons_False.
Qed.

(** X17: with a comparison window given by two calendar days in
    year-month-day form and three files that hold rows, when no row of
    the district lies in the window [calc_multi_error] raises
    [ValueError], whatever the reference files hold and before any error
    metric is computed: there is no peak. *)
Theorem calc_multi_error_empty_window (msle : metric) (fs : filesystem)
    (f : string) (d : argval) (start end_ hospital rki : string)
    (rows : list sim_row) (hrows : list hospital_row) (rrows : list rki_row) :
  iso_date start = true → iso_date end_ = true →
  rows ≠ [] → hrows ≠ [] → rrows ≠ [] →
  fs !! f = Some (SimFile rows) →
  fs !! hospital = Some (HospitalFile hrows) →
  fs !! rki = Some (RkiFile rrows) →
  Forall (λ r, between start end_ (date r) = false) (by_district d rows) →
  calc_multi_error msle fs f d (VStr start) (VStr end_) hospital rki
  = Raise ValueError.
Proof.
  intros _ _ _ _ _ Hf Hh Hr Hwindow.
  unfold calc_multi_error, read_data, read_sim, read_hospital, read_rki.
  rewrite Hf, Hh, Hr. cbn [mbind result_bind as_date].
  rewrite (filter_none _ (sim_frame 5 (by_district d rows))); [done|].
  rewrite <- (sim_frame_rows 5 (by_district d rows)) in Hwindow.
  rewrite map_fmap in Hwindow. apply Forall_fmap in Hwindow.
  eapply Forall_impl; [exact Hwindow|].
  intros r Hr'. unfold compose in Hr'. rewrite Hr'. by intros [].
Qed.

Lemma calc_multi_error_empty_window_witness :
  calc_multi_error (λ _ _, Ok (Fin 0%Qc)) march_files
    "infections.txt" (VStr "Berlin") (VStr "2020-04-01") (VStr "2020-04-30")
    "berlin-hospital.csv" "berlin-cases.csv"
  = Raise ValueError.
Proof.
  apply (calc_multi_error_empty_window _ _ _ _ _ _ _ _
           march_sim march_hospital march_rki).
  - reflexivity.
  - reflexivity.
  - discriminate.
  - discriminate.
  - discriminate.
  - reflexivity.
  - reflexivity.
  - reflexivity.
  - by repeat constructor.
Defined.

(** ** What an objective function does to the store *)

Lemma frames_bind {A B} (n1 n2 : nat) (m : M A) (k : A → M B) :
  frames n1 m → (∀ a, frames n2 (k a)) → frames (n1 + n2) (m ≫= k).
Proof.
  intros Hm Hk s. destruct (Hm s) as (Hst & Hgl & cmds1 & Hc1 & Hl1 & Hok1).
  unfold mbind, M_bind. destruct (m s) as [[a|e] s1]; simpl in *.
  - destruct (Hk a s1) as (Hst2 & Hgl2 & cmds2 & Hc2 & Hl2 & Hok2).
    split_and!; [congruence..|].
    exists (cmds1 ++ cmds2). rewrite length_app. split_and!.
    + by rewrite Hc2, Hc1, app_assoc.
    + lia.
    + intros Hok. rewrite Hok1, Hok2 by done. done.
  - split_and!; [done..|]. exists cmds1. split_and!; [done|lia|done].
Qed.

Lemma frames_quiet {A} (m : M A) :
  (∀ s, storage (m s).2 = storage s ∧ globals (m s).2 = globals s
        ∧ commands (m s).2 = commands s) →
  frames 0 m.
Proof.
  intros Hm s. destruct (Hm s) as (? & ? & Hc). split_and!; [done..|].
  exists []. by rewrite app_nil_r.
Qed.

Lemma frames_mret {A} (a : A) : frames 0 (mret a : M A).
Proof. by apply frames_quiet. Qed.

Lemma frames_lift {A} (r : result A) : frames 0 (lift r).
Proof. by apply frames_quiet. Qed.

Lemma frames_get_files : frames 0 get_files.
Proof. by apply frames_quiet. Qed.

Lemma frames_suggest_uniform ext t name low high :
  frames 0 (suggest_uniform ext t name low high).
Proof. by apply frames_quiet. Qed.

Lemma frames_study_user_attr t key : frames 0 (study_user_attr t key).
Proof.
  apply frames_quiet. intros s. unfold study_user_attr.
  destruct (storage s !! study_name t) as [st|]; [|done].
  by destruct (user_attrs st !! key).
Qed.

Lemma frames_set_user_attr key v : frames 0 (set_user_attr key v).
Proof. by apply frames_quiet. Qed.

Lemma frames_global name : frames 0 (global name).
Proof.
  apply frames_quiet. intros s. unfold global.
  by destruct (globals s !! name).
Qed.

Lemma frames_subprocess_run ext cmd : frames 1 (subprocess_run ext cmd).
Proof.
  intros s. unfold subprocess_run.
  destruct (simulate ext cmd (files s)) as [rc fs]. simpl.
  split_and!; [done..|]. by exists [cmd].
Qed.

Ltac frames_step :=
  first
    [ apply frames_mret | apply frames_lift | apply frames_get_files
    | apply frames_suggest_uniform | apply frames_study_user_attr
    | apply frames_set_user_attr | apply frames_global ].

Ltac frames_steps :=
  repeat first
    [ frames_step
    | apply frames_subprocess_run
    | apply (frames_bind 1 0); [apply frames_subprocess_run|intros ?]
    | apply (frames_bind 0 1); [solve [frames_step]|intros ?]
    | apply (frames_bind 0 0); [solve [frames_step]|intros ?]
    | match goal with
      | |- frames _ (match ?x with _ => _ end) => destruct x
      | |- frames _ (let '_ := ?x in _) => destruct x
      end ].

Lemma frames_record_errors r : frames 0 (record_errors r).
Proof. destruct r as [[[[? ?] ?] ?] ?]. unfold record_errors. frames_steps. Qed.

Lemma frames_objective_unconstrained ext t :
  frames 1 (objective_unconstrained ext t).
Proof. unfold objective_unconstrained. cbv zeta. frames_steps. Qed.

Lemma frames_objective_ci_correction ext t :
  frames 1 (objective_ci_correction ext t).
Proof.
  unfold objective_ci_correction. cbv zeta. frames_steps.
  apply (frames_bind 0 0); [apply frames_record_errors|intros _].
  frames_steps.
Qed.

Lemma frames_objective_multi ext t : frames 1 (objective_multi ext t).
Proof.
  unfold objective_multi. cbv zeta. frames_steps.
  apply (frames_bind 0 0); [apply frames_record_errors|intros _].
  frames_steps.
Qed.

(** X19: an objective function runs the simulator at most once in a trial,
    and exactly once whenever it returns a score. *)
Theorem objectives_run_simulator_once (ext : externals) (t : trial)
    (s : state) :
  runs_once (objective_unconstrained ext t) s
  ∧ runs_once (objective_ci_correction ext t) s
  ∧ runs_once (objective_multi ext t) s.
Proof.
  destruct (frames_objective_unconstrained ext t s) as (_ & _ & ?).
  destruct (frames_objective_ci_correction ext t s) as (_ & _ & ?).
  destruct (frames_objective_multi ext t s) as (_ & _ & ?).
  done.
Qed.

(** X20: run without the module globals [scenario] and [district], which
    only the multi mode of the script sets, [objective_multi] raises
    [NameError] at once: nothing is sampled, nothing is run and the store
    is as before. *)
Theorem objective_multi_without_globals (ext : externals) (t : trial)
    (s : state) :
  globals s !! "scenario" = None ∨ globals s !! "district" = None →
  objective_multi ext t s = (Raise NameError, s).
Proof.
  intros Hmissing. unfold objective_multi. cbv zeta.
  unfold mbind at 1. unfold M_bind at 1. unfold global at 1.
  destruct (globals s !! "scenario") as [scenario|] eqn:Hs; [|done].
  destruct Hmissing as [|Hd]; [done|].
  unfold mbind at 1. unfold M_bind at 1. unfold global at 1.
  by rewrite Hd.
Qed.

Lemma objective_multi_without_globals_witness :
  objective_multi (sample_externals 0)
    {| study_name := "multi"; number := 0 |} (configured "multi")
  = (Raise NameError, configured "multi").
Proof.
  apply (objective_multi_without_globals (sample_externals 0)
           {| study_name := "multi"; number := 0 |} (configured "multi")).
  left. reflexivity.
Defined.

Lemma study_user_attr_lookup (t : trial) (key : string) (s : state) :
  study_user_attr t key s
  = (match study_attr s t key with Some v => Ok v | None => Raise KeyError end,
     s).
Proof.
  unfold study_user_attr, study_attr.
  destruct (storage s !! study_name t) as [st|]; simpl; [|done].
  by destruct (user_attrs st !! key).
Qed.

(** X21: when the study of the trial lacks the attribute [scenario] or
    [district], the unconstrained and the CI-correction objective raise
    [KeyError] and the simulator is not run. *)
Theorem objectives_without_configuration (ext : externals) (t : trial)
    (s : state) :
  study_attr s t "scenario" = None ∨ study_attr s t "district" = None →
  ((objective_unconstrained ext t s).1 = Raise KeyError
   ∧ commands (objective_unconstrained ext t s).2 = commands s
   ∧ files (objective_unconstrained ext t s).2 = files s)
  ∧ objective_ci_correction ext t s = (Raise KeyError, s).
Proof.
  intros Hmissing. split.
  - assert (Hrun : objective_unconstrained ext t s
                   = (Raise KeyError,
                      with_param "calibrationParameter"
                        (sampler ext (number t) "calibrationParameter"
                           (decimal 1 1000000) (decimal 4 1000000)) s)).
    { unfold objective_unconstrained. cbv zeta.
      unfold mbind at 1. unfold M_bind at 1. unfold suggest_uniform at 1.
      unfold mbind at 1. unfold M_bind at 1.
      rewrite study_user_attr_lookup.
      change (study_attr (with_param ?n ?v s) t ?k) with (study_attr s t k).
      destruct (study_attr s t "scenario") eqn:Hs; [|done].
      destruct Hmissing as [|Hd]; [done|].
      unfold mbind at 1. unfold M_bind at 1.
      rewrite study_user_attr_lookup.
      change (study_attr (with_param ?n ?v s) t ?k) with (study_attr s t k).
      by rewrite Hd. }
    by rewrite Hrun.
  - unfold objective_ci_correction. cbv zeta.
    unfold mbind at 1. unfold M_bind at 1.
    rewrite study_user_attr_lookup.
    destruct (study_attr s t "scenario") eqn:Hs; [|done].
    destruct Hmissing as [|Hd]; [done|].
    unfold mbind at 1. unfold M_bind at 1.
    rewrite study_user_attr_lookup. by rewrite Hd.
Qed.

Lemma objectives_without_configuration_witness :
  objective_ci_correction (sample_externals 0)
    {| study_name := "ci_correction"; number := 0 |} (initial ∅)
  = (Raise KeyError, initial ∅).
Proof.
  apply (objectives_without_configuration (sample_externals 0)
           {| study_name := "ci_correction"; number := 0 |} (initial ∅)).
  left. reflexivity.
Defined.

Lemma ensures_bind {A B} (Q : B → Prop) (m : M A) (k : A → M B) :
  (∀ a, ensures Q (k a)) → ensures Q (m ≫= k).
Proof.
  intros Hk s b. unfold mbind, M_bind.
  destruct (m s) as [[a|e] s1]; [apply Hk|done].
Qed.

Lemma ensures_mret {A} (Q : A → Prop) (a : A) : Q a → ensures Q (mret a : M A).
Proof. intros Ha s b [= <-]. done. Qed.

Ltac ensures_steps :=
  repeat first
    [ apply ensures_mret
    | apply ensures_bind; intros ?
    | match goal with
      | |- ensures _ (match ?x with _ => _ end) => destruct x
      | |- ensures _ (let '_ := ?x in _) => destruct x
      end ].

Lemma objective_unconstrained_arity ext t :
  ensures (λ scores, length scores = 1) (objective_unconstrained ext t).
Proof. unfold objective_unconstrained. cbv zeta. by ensures_steps. Qed.

Lemma objective_multi_arity ext t :
  ensures (λ scores, length scores = 3) (objective_multi ext t).
Proof. unfold objective_multi. cbv zeta. by ensures_steps. Qed.
(** ** [study.optimize] and the script *)

Lemma select_objective_keeps_study (mode : string) :
  keeps_study (select_objective mode).
Proof.
  intros ext t s. unfold select_objective. destruct (decide (mode = "multi")).
  - by destruct (frames_objective_multi ext t s) as (? & ? & _).
  - by destruct (frames_objective_unconstrained ext t s) as (? & ? & _).
Qed.

Lemma with_trials_nil (st : study) : with_trials st [] = st.
Proof. destruct st. unfold with_trials. simpl. by rewrite app_nil_r. Qed.

Lemma with_trials_app (st : study) (new1 new2 : list frozen_trial) :
  with_trials (with_trials st new1) new2 = with_trials st (new1 ++ new2).
Proof. unfold with_trials. simpl. by rewrite app_assoc. Qed.

Lemma run_trial_spec (ext : externals) (name : string) (obj : objective)
    (s : state) (st : study) :
  keeps_study obj → storage s !! name = Some st →
  ∃ tr, storage (run_trial ext name obj s).2 !! name
          = Some (with_trials st [tr])
        ∧ globals (run_trial ext name obj s).2 = globals s
        ∧ t_number tr = length (trials st)
        ∧ match (run_trial ext name obj s).1 with
          | Ok _ => is_ok (t_values tr) = true
          | Raise e => t_values tr = Raise e
          end.
Proof.
  intros Hobj Hst. unfold run_trial. rewrite Hst.
  destruct (Hobj ext {| study_name := name; number := length (trials st) |}
              (new_trial s)) as [Hdb Hgl].
  destruct (obj ext _ (new_trial s)) as [r s1]. simpl in *.
  eexists. split_and!.
  - rewrite lookup_alter_eq, Hdb, Hst. reflexivity.
  - done.
  - done.
  - by destruct r.
Qed.

Lemma optimize_spec (ext : externals) (name : string) (obj : objective)
    (n : nat) (s : state) (st : study) :
  keeps_study obj → storage s !! name = Some st →
  ∃ new, storage (optimize ext name obj n s).2 !! name
           = Some (with_trials st new)
         ∧ globals (optimize ext name obj n s).2 = globals s
         ∧ length new ≤ n
         ∧ (∀ i tr, new !! i = Some tr →
              t_number tr = length (trials st) + i)
         ∧ run_outcome (optimize ext name obj n s).1 n new.
Proof.
  intros Hobj. revert s st. induction n as [|n IH]; intros s st Hst.
  { exists []. rewrite with_trials_nil. by split_and!. }
  destruct (run_trial_spec ext name obj s st Hobj Hst)
    as (tr & Hdb & Hgl & Hnum & Hres).
  simpl. unfold mbind, M_bind.
  destruct (run_trial ext name obj s) as [[[]|e] s1]; simpl in *.
  - destruct (IH s1 _ Hdb) as (new & Hdb' & Hgl' & Hlen & Hnums & Hout).
    exists (tr :: new). rewrite with_trials_app in Hdb'. split_and!.
    + done.
    + congruence.
    + simpl. lia.
    + intros [|i] tr' Htr'; simpl in *.
      * simplify_eq. lia.
      * rewrite (Hnums i tr' Htr'), length_app. simpl. lia.
    + destruct (optimize ext name obj n s1).1 as [[]|e'].
      * destruct Hout as [Hl Hall]. split; [simpl; lia|by constructor].
      * destruct Hout as (scored & failed & -> & Hall & Hfail).
        exists (tr :: scored), failed. split_and!; [done|by constructor|done].
  - exists [tr]. split_and!; [done|done|simpl; lia| |].
    + intros [|i] tr' Htr'; simpl in *; [|done]. simplify_eq. lia.
    + by exists [], tr.
Qed.

(** X23: [study.optimize] appends to the study it runs on: after a run of
    [n] trials of the objective of a mode, the study has its directions,
    its attributes and all its earlier trials, followed by at most [n] new
    trials that are numbered on from the earlier ones. *)
Theorem optimize_appends (ext : externals) (name mode : string) (n : nat)
    (s : state) (st : study) :
  storage s !! name = Some st →
  ∃ new, storage (optimize ext name (select_objective mode) n s).2 !! name
           = Some (with_trials st new)
         ∧ length new ≤ n
         ∧ ∀ i tr, new !! i = Some tr → t_number tr = length (trials st) + i.
Proof.
  intros Hst.
  destruct (optimize_spec ext name (select_objective mode) n s st
              (select_objective_keeps_study mode) Hst)
    as (new & ? & _ & ? & ? & _).
  by exists new.
Qed.

(** X24: a run ends at the first trial whose objective raises: when all
    [n] trials are scored the study gains [n] scored trials and the run
    ends well; when the run ends with an exception, the trials it added
    are scored ones and, last, one stored with that exception. *)
Theorem optimize_stops_at_failure (ext : externals) (name mode : string)
    (n : nat) (s : state) (st : study) :
  storage s !! name = Some st →
  ∃ new, storage (optimize ext name (select_objective mode) n s).2 !! name
           = Some (with_trials st new)
         ∧ run_outcome (optimize ext name (select_objective mode) n s).1 n new.
Proof.
  intros Hst.
  destruct (optimize_spec ext name (select_objective mode) n s st
              (select_objective_keeps_study mode) Hst)
    as (new & ? & _ & _ & _ & ?).
  by exists new.
Qed.

Lemma optimize_appends_witness :
  ∃ st new,
    storage (configured "unconstrained") !! "unconstrained" = Some st
    ∧ storage (optimize (sample_externals 0) "unconstrained"
                 (select_objective "unconstrained") 1
                 (configured "unconstrained")).2 !! "unconstrained"
      = Some (with_trials st new)
    ∧ length new ≤ 1.
Proof.
  assert (Hst : is_Some (storage (configured "unconstrained")
                           !! "unconstrained"))
    by (vm_compute; eexists; reflexivity).
  destruct Hst as [st Hst].
  destruct (optimize_appends (sample_externals 0) "unconstrained"
              "unconstrained" 1 (configured "unconstrained") st Hst)
    as (new & Hdb & Hlen & _).
  exists st, new. split_and!; [exact Hst|exact Hdb|exact Hlen].
Defined.

Lemma optimize_stops_at_failure_witness :
  ∃ st new,
    storage (configured "ci_correction") !! "ci_correction" = Some st
    ∧ storage (optimize (sample_externals 0) "ci_correction"
                 (select_objective "ci_correction") 2
                 (configured "ci_correction")).2 !! "ci_correction"
      = Some (with_trials st new).
Proof.
  assert (Hst : is_Some (storage (configured "ci_correction")
                           !! "ci_correction"))
    by (vm_compute; eexists; reflexivity).
  destruct Hst as [st Hst].
  destruct (optimize_stops_at_failure (sample_externals 0) "ci_correction"
              "ci_correction" 2 (configured "ci_correction") st Hst)
    as (new & Hdb & _).
  exists st, new. split; [exact Hst|exact Hdb].
Defined.

Lemma create_study_spec (name : string) (d : nat) (s : state) :
  ∃ s', create_study name d s = (Ok tt, s')
        ∧ storage s' !! name = Some (default (fresh_study d) (storage s !! name))
        ∧ globals s' = globals s.
Proof.
  unfold create_study. destruct (storage s !! name) as [st|] eqn:Hst.
  - by exists s.
  - eexists. split_and!; [done| |done]. simpl. by rewrite lookup_insert_eq.
Qed.

Lemma copy_args_spec (name : string) (kvs : list (string * argval))
    (s : state) (st : study) :
  storage s !! name = Some st →
  ∃ s', copy_args name kvs s = (Ok tt, s')
        ∧ storage s' !! name = Some (with_attrs st kvs)
        ∧ globals s' = globals s.
Proof.
  revert s st. induction kvs as [|[k v] kvs IH]; intros s st Hst.
  { exists s. split_and!; [done| |done]. rewrite Hst. by destruct st. }
  destruct (IH (study_set_user_attr name k v s).2
              {| directions := directions st;
                 user_attrs := <[k := v]> (user_attrs st);
                 trials := trials st |}) as (s' & Hrun & Hdb & Hgl).
  { simpl. by rewrite lookup_alter_eq, Hst. }
  exists s'. split_and!; [exact Hrun|by rewrite Hdb|done].
Qed.

Lemma main_run (ext : externals) (a : arguments) (s : state) :
  arg_objective a ∈ objective_choices →
  ∃ s2,
    main ext a s
      = optimize ext (arg_objective a) (select_objective (arg_objective a))
          (n_trials a) s2
    ∧ storage s2 !! arg_objective a
      = Some (with_attrs (opened_study s a) (args_items a))
    ∧ globals s2
      = (if decide (arg_objective a = "multi")
         then <["scenario" := VStr (arg_scenario a)]>
                (<["district" := VStr (arg_district a)]> (globals s))
         else globals s).
Proof.
  intros Hmode. unfold main, parse_args, opened_study.
  rewrite decide_True by done.
  unfold mbind at 1. unfold M_bind at 1. cbn [mret M_ret].
  destruct (decide (arg_objective a = "multi")) as [Hmulti|Hother].
  - destruct (create_study_spec (arg_objective a) 3 s)
      as (s1 & Hrun1 & Hdb1 & Hgl1).
    unfold mbind at 1 2 3. unfold M_bind at 1 2 3. rewrite Hrun1.
    unfold set_global. cbn [fst snd].
    destruct (copy_args_spec (arg_objective a) (args_items a)
                (with_global "scenario" (VStr (arg_scenario a))
                   (with_global "district" (VStr (arg_district a)) s1))
                _ Hdb1)
      as (s2 & Hrun2 & Hdb2 & Hgl2).
    unfold mbind at 1. unfold M_bind at 1. rewrite Hrun2.
    exists s2. split_and!; [done..|].
    rewrite Hgl2. simpl. by rewrite Hgl1.
  - destruct (create_study_spec (arg_objective a) 1 s)
      as (s1 & Hrun1 & Hdb1 & Hgl1).
    unfold mbind at 1. unfold M_bind at 1. rewrite Hrun1.
    destruct (copy_args_spec (arg_objective a) (args_items a) s1 _ Hdb1)
      as (s2 & Hrun2 & Hdb2 & Hgl2).
    unfold mbind at 1. unfold M_bind at 1. rewrite Hrun2.
    exists s2. split_and!; [done..|]. by rewrite Hgl2.
Qed.

Lemma main_spec (ext : externals) (a : arguments) (s : state) :
  arg_objective a ∈ objective_choices →
  ∃ new,
    storage (main ext a s).2 !! arg_objective a
      = Some (with_trials (with_attrs (opened_study s a) (args_items a)) new)
    ∧ globals (main ext a s).2
      = (if decide (arg_objective a = "multi")
         then <["scenario" := VStr (arg_scenario a)]>
                (<["district" := VStr (arg_district a)]> (globals s))
         else globals s)
    ∧ length new ≤ n_trials a
    ∧ (∀ i tr, new !! i = Some tr →
         t_number tr = length (trials (opened_study s a)) + i)
    ∧ run_outcome (main ext a s).1 (n_trials a) new.
Proof.
  intros Hmode.
  destruct (main_run ext a s Hmode) as (s2 & -> & Hdb2 & Hgl2).
  destruct (optimize_spec ext (arg_objective a)
              (select_objective (arg_objective a)) (n_trials a) s2 _
              (select_objective_keeps_study _) Hdb2)
    as (new & Hdb & Hgl & Hlen & Hnums & Hout).
  exists new. split_and!; [done|by rewrite Hgl|done..].
Qed.

(** With an objective outside the three choices the script ends with
    [SystemExit] before it opens a study: the store is untouched. *)
Theorem main_rejects_unknown_objective (ext : externals) (a : arguments)
    (s : state) :
  arg_objective a ∉ objective_choices →
  main ext a s = (Raise SystemExit, s).
Proof.
  intros Hmode. unfold main, parse_args. by rewrite decide_False.
Qed.

Lemma main_rejects_unknown_objective_witness :
  main (sample_externals 0) (sample_arguments "constrained") (initial ∅)
  = (Raise SystemExit, initial ∅).
Proof.
  apply (main_rejects_unknown_objective (sample_externals 0)
           (sample_arguments "constrained") (initial ∅)).
  intros Hin. vm_compute in Hin.
  repeat (apply elem_of_cons in Hin as [Hin|Hin]; [discriminate Hin|]).
  by apply elem_of_nil in Hin.
Defined.

(** X25: after a run of the script the study of the mode holds every
    entry of the run configuration among its attributes, whether the
    study is new or was stored with other values before. *)
Theorem main_records_configuration (ext : externals) (a : arguments)
    (s : state) :
  arg_objective a ∈ objective_choices →
  ∃ st, storage (main ext a s).2 !! arg_objective a = Some st
        ∧ ∀ k v, (k, v) ∈ args_items a → user_attrs st !! k = Some v.
Proof.
  intros Hmode. destruct (main_spec ext a s Hmode) as (new & Hdb & _).
  eexists. split; [exact Hdb|].
  intros k v Hkv. unfold args_items in Hkv. simpl.
  repeat (apply elem_of_cons in Hkv as [[= -> ->]|Hkv];
          [repeat (rewrite lookup_insert_ne by done);
           by rewrite lookup_insert_eq|]).
  by apply elem_of_nil in Hkv.
Qed.

Lemma main_records_configuration_witness :
  ∃ st, storage (main (sample_externals 0) (sample_arguments "multi")
                   (initial ∅)).2 !! "multi" = Some st
        ∧ user_attrs st !! "district" = Some (VStr "Berlin").
Proof.
  destruct (main_records_configuration (sample_externals 0)
              (sample_arguments "multi") (initial ∅)) as (st & Hdb & Hattrs).
  - vm_compute. right. right. left.
  - exists st. split; [exact Hdb|]. apply Hattrs. right. left.
Defined.

(** X26: in the multi mode the script sets the module globals [scenario]
    and [district] from the command line before the first trial, and they
    still hold these values after the run; in the other modes the run
    leaves the globals as they were. *)
Theorem main_globals (ext : externals) (a : arguments) (s : state) :
  arg_objective a ∈ objective_choices →
  (arg_objective a = "multi" →
     globals (main ext a s).2 !! "scenario" = Some (VStr (arg_scenario a))
     ∧ globals (main ext a s).2 !! "district" = Some (VStr (arg_district a)))
  ∧ (arg_objective a ≠ "multi" → globals (main ext a s).2 = globals s).
Proof.
  intros Hmode. destruct (main_spec ext a s Hmode) as (new & _ & Hgl & _).
  rewrite Hgl. split; intros Hm.
  - rewrite decide_True by done. split.
    + by rewrite lookup_insert_eq.
    + by rewrite lookup_insert_ne, lookup_insert_eq.
  - by rewrite decide_False.
Qed.

Lemma main_globals_witness :
  globals (main (sample_externals 0) (sample_arguments "multi")
             (initial ∅)).2 !! "scenario"
  = Some (VStr "SnzBerlinScenario25pct2020").
Proof.
  destruct (main_globals (sample_externals 0) (sample_arguments "multi")
              (initial ∅)) as [Hmulti _].
  - vm_compute. right. right. left.
  - apply Hmulti. reflexivity.
Defined.

(** X27: the script resumes a stored study of the mode: it keeps the
    directions and the trials of the study and numbers its own trials on
    from them.  Without a stored study it starts one with three
    directions in the multi mode and one otherwise, and its trials are
    numbered from 0.  It adds at most the requested number of trials. *)
Theorem main_opens_or_resumes (ext : externals) (a : arguments) (s : state) :
  arg_objective a ∈ objective_choices →
  ∃ (st' : study) (new : list frozen_trial),
    storage (main ext a s).2 !! arg_objective a = Some st'
    ∧ length new ≤ n_trials a
    ∧ (∀ st, storage s !! arg_objective a = Some st →
         directions st' = directions st
         ∧ trials st' = trials st ++ new
         ∧ ∀ i tr, new !! i = Some tr → t_number tr = length (trials st) + i)
    ∧ (storage s !! arg_objective a = None →
         directions st'
           = (if decide (arg_objective a = "multi") then 3 else 1)
         ∧ trials st' = new
         ∧ ∀ i tr, new !! i = Some tr → t_number tr = i).
Proof.
  intros Hmode.
  destruct (main_spec ext a s Hmode) as (new & Hdb & _ & Hlen & Hnums & _).
  eexists _, new. split_and!; [exact Hdb|done| |].
  - intros st Hst. unfold opened_study in *. rewrite Hst in *. done.
  - intros Hnone. unfold opened_study in *. rewrite Hnone in *. done.
Qed.

Lemma main_opens_or_resumes_witness :
  ∃ (st' : study) (new : list frozen_trial),
    storage (main (sample_externals 0) (sample_arguments "unconstrained")
               (configured "unconstrained")).2 !! "unconstrained" = Some st'
    ∧ length new ≤ 1.
Proof.
  destruct (main_opens_or_resumes (sample_externals 0)
              (sample_arguments "unconstrained") (configured "unconstrained"))
    as (st' & new & Hdb & Hlen & _).
  - vm_compute. left.
  - exists st', new. split; [exact Hdb|exact Hlen].
Defined.

(** ** The age histogram of the analysis script *)

Lemma lookup_fromkeys (keys : list Z) (v k : Z) :
  fromkeys keys v !! k = if decide (k ∈ keys) then Some v else None.
Proof.
  induction keys as [|k' keys IH].
  - unfold fromkeys. cbn [foldr]. rewrite lookup_empty.
    destruct (decide (k ∈ [])) as [Hin|]; [|done].
    by apply elem_of_nil in Hin.
  - change (fromkeys (k' :: keys) v) with (<[k' := v]> (fromkeys keys v)).
    destruct (decide (k' = k)) as [->|Hne].
    + rewrite lookup_insert_eq.
      destruct (decide (k ∈ k :: keys)) as [|Hnin]; [done|].
      exfalso. apply Hnin. by left.
    + rewrite lookup_insert_ne, IH by done.
      destruct (decide (k ∈ keys)) as [Hin|Hnin];
        destruct (decide (k ∈ k' :: keys)) as [Hin'|Hnin']; [done| | |done].
      * exfalso. apply Hnin'. by right.
      * apply elem_of_cons in Hin' as [?|?]; [congruence|done].
Qed.

Section histogram.
Context (personAge : gmap string Z).

Lemma infectionsByAge_loop_counts (infected : list string) (hist : gmap Z Z) :
  (∀ abc, abc ∈ infected →
     ∃ age, personAge !! abc = Some age ∧ is_Some (hist !! age)) →
  ∃ hist', infectionsByAge_loop personAge infected hist = Ok hist'
           ∧ (∀ age, is_Some (hist' !! age) ↔ is_Some (hist !! age))
           ∧ ∀ age c, hist !! age = Some c →
               hist' !! age
               = Some (c + events_of_age personAge infected age)%Z.
Proof.
  revert hist. induction infected as [|abc infected IH]; intros hist Hin.
  { exists hist. split_and!; [done..|]. intros age c Hc.
    unfold events_of_age. simpl. rewrite Hc. f_equal. lia. }
  destruct (Hin abc) as (a & Ha & [c0 Hc0]); [left|].
  simpl. rewrite Ha, Hc0.
  destruct (IH (<[a := (c0 + 1)%Z]> hist)) as (hist' & Hrun & Hdom & Hcount).
  { intros abc' Hin'. destruct (Hin abc') as (a' & Ha' & Hsome); [by right|].
    exists a'. split; [done|]. by apply lookup_insert_is_Some'; right. }
  exists hist'. split_and!; [done| |].
  - intros age. rewrite Hdom, lookup_insert_is_Some'. split; [|by right].
    intros [->|?]; [by eexists|done].
  - intros age c Hc. unfold events_of_age in *.
    rewrite filter_cons. destruct (decide (a = age)) as [->|Hne].
    + rewrite decide_True by done.
      rewrite (Hcount age (c0 + 1)%Z) by by rewrite lookup_insert_eq.
      f_equal. simplify_eq. simpl length. lia.
    + rewrite decide_False by congruence.
      by rewrite (Hcount age c) by by rewrite lookup_insert_ne.
Qed.

Lemma infectionsByAge_loop_ok (infected : list string) (hist : gmap Z Z) :
  is_ok (infectionsByAge_loop personAge infected hist) = true →
  ∀ abc, abc ∈ infected →
    ∃ age, personAge !! abc = Some age ∧ is_Some (hist !! age).
Proof.
  revert hist. induction infected as [|abc infected IH]; intros hist Hok.
  { intros abc Habc. by apply elem_of_nil in Habc. }
  simpl in Hok.
  destruct (personAge !! abc) as [a|] eqn:Ha; [|done].
  destruct (hist !! a) as [c0|] eqn:Hc0; [|done].
  intros abc' [->|Hin]%elem_of_cons.
  - exists a. by rewrite Hc0.
  - destruct (IH _ Hok abc' Hin) as (a' & Ha' & Hsome).
    exists a'. split; [done|].
    apply lookup_insert_is_Some' in Hsome as [->|?]; [by rewrite Hc0|done].
Qed.

Lemma infectionsByAge_loop_error (infected : list string) (hist : gmap Z Z) :
  is_ok (infectionsByAge_loop personAge infected hist) = false →
  infectionsByAge_loop personAge infected hist = Raise KeyError.
Proof.
  revert hist. induction infected as [|abc infected IH]; intros hist; [done|].
  simpl. destruct (personAge !! abc) as [a|]; [|done].
  destruct (hist !! a) as [c0|]; [|done]. apply IH.
Qed.
End histogram.

Lemma fromkeys_range (age : Z) :
  is_Some (fromkeys (range 0 100) 0 !! age) ↔ (0 ≤ age < 100)%Z.
Proof.
  rewrite lookup_fromkeys. split.
  - destruct (decide (age ∈ range 0 100)) as [Hin|]; [|by intros [? [=]]].
    intros _. by apply range_bounds in Hin.
  - intros Hage. rewrite decide_True by by apply elem_of_range. by eexists.
Qed.

(** X28: the histogram of infections by age is computed exactly when every
    infected person has an age from 0 to 99; otherwise the loop raises
    [KeyError]. *)
Theorem infectionsByAge_defined (personAge : gmap string Z)
    (infected : list string) :
  (is_ok (infectionsByAge personAge infected) = true
   ↔ ages_in_range personAge infected)
  ∧ (is_ok (infectionsByAge personAge infected) = false →
     infectionsByAge personAge infected = Raise KeyError).
Proof.
  unfold infectionsByAge, ages_in_range. split; [split|].
  - intros Hok abc Habc.
    destruct (infectionsByAge_loop_ok _ _ _ Hok abc Habc) as (a & Ha & Hsome).
    exists a. split; [done|]. by apply fromkeys_range.
  - intros Hall.
    destruct (infectionsByAge_loop_counts personAge infected
                (fromkeys (range 0 100) 0)) as (hist' & -> & _); [|done].
    intros abc Habc. destruct (Hall abc Habc) as (a & Ha & Hrange).
    exists a. split; [done|]. by apply fromkeys_range.
  - apply infectionsByAge_loop_error.
Qed.

(** X29: when every infected person has an age from 0 to 99, the
    histogram has the ages 0 to 99 as its keys, no other, and holds for
    each of them the number of infection events of persons of that age. *)
Theorem infectionsByAge_counts (personAge : gmap string Z)
    (infected : list string) :
  ages_in_range personAge infected →
  ∃ hist, infectionsByAge personAge infected = Ok hist
          ∧ (∀ age, is_Some (hist !! age) ↔ (0 ≤ age < 100)%Z)
          ∧ ∀ age, (0 ≤ age < 100)%Z →
              hist !! age = Some (events_of_age personAge infected age).
Proof.
  intros Hall. unfold infectionsByAge.
  destruct (infectionsByAge_loop_counts personAge infected
              (fromkeys (range 0 100) 0)) as (hist & Hrun & Hdom & Hcount).
  { intros abc Habc. destruct (Hall abc Habc) as (a & Ha & Hrange).
    exists a. split; [done|]. by apply fromkeys_range. }
  exists hist. split_and!; [done| |].
  - intros age. by rewrite Hdom, fromkeys_range.
  - intros age Hage. rewrite (Hcount age 0%Z).
    + f_equal; lia.
    + rewrite lookup_fromkeys. by rewrite decide_True by by apply elem_of_range.
Qed.

Lemma infectionsByAge_counts_witness :
  ∃ hist,
    infectionsByAge {[ "p1" := 34%Z; "p2" := 71%Z ]} ["p1"; "p2"; "p1"]
      = Ok hist
    ∧ hist !! 34%Z
      = Some (events_of_age {[ "p1" := 34%Z; "p2" := 71%Z ]}
                ["p1"; "p2"; "p1"] 34).
Proof.
  destruct (infectionsByAge_counts {[ "p1" := 34%Z; "p2" := 71%Z ]}
              ["p1"; "p2"; "p1"]) as (hist & Hrun & _ & Hcount).
  - intros abc Habc.
    repeat (apply elem_of_cons in Habc as [->|Habc];
            [eexists; split; [reflexivity|lia]|]).
    by apply elem_of_nil in Habc.
  - exists hist. split; [exact Hrun|]. apply Hcount. lia.
Defined.

Lemma infectionsByAge_defined_witness :
  infectionsByAge {[ "p1" := 34%Z ]} ["p1"; "p7"] = Raise KeyError.
Proof.
  apply (infectionsByAge_defined {[ "p1" := 34%Z ]} ["p1"; "p7"]).
  reflexivity.
Defined.

Lemma idxmax_first_largest_witness :
  ∃ x, first_largest
         [("2020-03-09", None); ("2020-03-10", Some (decimal 5 1));
          ("2020-03-11", Some (decimal 7 1)); ("2020-03-12", Some (decimal 7 1))]
         "2020-03-11" x.
Proof.
  apply (idxmax_first_largest
           [("2020-03-09", None); ("2020-03-10", Some (decimal 5 1));
            ("2020-03-11", Some (decimal 7 1));
            ("2020-03-12", Some (decimal 7 1))]).
  reflexivity.
Defined.

Lemma optimize_values (Q : list float64 → Prop) (ext : externals)
    (name : string) (obj : objective) (n : nat) (s : state) (st : study) :
  keeps_study obj → (∀ t, ensures Q (obj ext t)) →
  storage s !! name = Some st →
  ∃ new, storage (optimize ext name obj n s).2 !! name
           = Some (with_trials st new)
         ∧ Forall (λ tr, ∀ vs, t_values tr = Ok vs → Q vs) new.
Proof.
  intros Hobj HQ. revert s st. induction n as [|n IH]; intros s st Hst.
  { exists []. rewrite with_trials_nil. by split. }
  simpl. unfold mbind, M_bind.
  assert (Hrun : ∃ tr, storage (run_trial ext name obj s).2 !! name
                         = Some (with_trials st [tr])
                       ∧ ∀ vs, t_values tr = Ok vs → Q vs).
  { unfold run_trial. rewrite Hst.
    pose proof (HQ {| study_name := name; number := length (trials st) |}
                  (new_trial s)) as Hvs.
    destruct (Hobj ext {| study_name := name; number := length (trials st) |}
                (new_trial s)) as [Hdb _].
    destruct (obj ext _ (new_trial s)) as [r s1]. simpl in *.
    eexists. split.
    - rewrite lookup_alter_eq, Hdb, Hst. reflexivity.
    - simpl. intros vs ->. by apply Hvs. }
  destruct Hrun as (tr & Hdb & Htr).
  destruct (run_trial ext name obj s) as [[[]|e] s1]; simpl in *.
  - destruct (IH s1 _ Hdb) as (new & Hdb' & Hall).
    exists (tr :: new). rewrite with_trials_app in Hdb'.
    split; [done|by constructor].
  - exists [tr]. split; [done|by repeat constructor].
Qed.

Lemma select_objective_arity (mode : string) (ext : externals) (t : trial) :
  ensures (λ scores, length scores = if decide (mode = "multi") then 3 else 1)
    (select_objective mode ext t).
Proof.
  unfold select_objective. destruct (decide (mode = "multi")).
  - apply objective_multi_arity.
  - apply objective_unconstrained_arity.
Qed.

(** X22: the scores that the script stores fit the study: when the study
    of the mode is new, or is a stored one with the directions of the mode
    (three in the multi mode, one otherwise) whose scored trials have as
    many values as it has directions, then after the run every scored
    trial of the study has as many values as the study has directions. *)
Theorem main_scores_match_directions (ext : externals) (a : arguments)
    (s : state) :
  arg_objective a ∈ objective_choices →
  (∀ st, storage s !! arg_objective a = Some st →
     directions st = (if decide (arg_objective a = "multi") then 3 else 1)
     ∧ scores_match st) →
  ∃ st', storage (main ext a s).2 !! arg_objective a = Some st'
         ∧ directions st'
           = (if decide (arg_objective a = "multi") then 3 else 1)
         ∧ scores_match st'.
Proof.
  intros Hmode Hstored.
  destruct (main_run ext a s Hmode) as (s2 & -> & Hdb2 & _).
  destruct (optimize_values _ ext (arg_objective a)
              (select_objective (arg_objective a)) (n_trials a) s2 _
              (select_objective_keeps_study _)
              (select_objective_arity (arg_objective a) ext) Hdb2)
    as (new & Hdb & Hnew).
  assert (Hopen : directions (opened_study s a)
                  = (if decide (arg_objective a = "multi") then 3 else 1)
                  ∧ scores_match (opened_study s a)).
  { unfold opened_study.
    destruct (storage s !! arg_objective a) as [st|] eqn:Hst; simpl.
    - by apply Hstored.
    - split; [done|]. by constructor. }
  destruct Hopen as [Hdir Hold].
  eexists. split_and!; [exact Hdb|exact Hdir|].
  unfold scores_match in *. simpl. apply Forall_app. split; [done|].
  eapply Forall_impl; [exact Hnew|]. intros tr Htr vs Hvs. simpl.
  rewrite Hdir. by apply Htr.
Qed.

Lemma main_scores_match_directions_witness :
  ∃ st', storage (main (sample_externals 0) (sample_arguments "unconstrained")
                    (initial ∅)).2 !! "unconstrained" = Some st'
         ∧ directions st' = 1
         ∧ scores_match st'.
Proof.
  apply (main_scores_match_directions (sample_externals 0)
           (sample_arguments "unconstrained") (initial ∅)).
  - vm_compute. left.
  - intros st Hst. vm_compute in Hst. discriminate Hst.
Defined.
